(** * Gravity simulation: the physics core of [gravity.py]

    A shallow embedding of the four physics functions ([apply_gravity],
    [clamp_velocity], [update_position], [handle_collision]), of the
    [Planet] constructor and of the three passes of the main loop.

    Numbers.  Python's [float] values are modelled as real numbers: every
    arithmetic operation of the source is the corresponding operation on
    [R], so the theorems below speak about the exact arithmetic of the
    formulas and not about binary64 rounding.  The two partial operations
    of the source keep their failure: [/] raises [ZeroDivisionError] on a
    zero divisor and [math.sqrt] raises [ValueError] on a negative
    argument. *)

From Stdlib Require Import Reals Lra Lia List Arith ZArith.
Import ListNotations.

Open Scope R_scope.

(** ** Constants (gravity.py, lines 6-10) *)

Definition WIDTH : R := 1200.
Definition HEIGHT : R := 800.
Definition G : R := 400.
Definition DT : R := 1 / 60.
Definition MAX_VELOCITY : R := 25.
Definition BORDER_THICKNESS : R := 5.

(** ** Exceptions and the error monad *)

Inductive exn : Set :=
| ZeroDivisionError
| ValueError
| IndexError.

Inductive result (A : Type) : Type :=
| Ok (a : A)
| Raise (e : exn).

Arguments Ok {A} a.
Arguments Raise {A} e.

Definition bind {A B : Type} (m : result A) (k : A -> result B) : result B :=
  match m with
  | Ok a => k a
  | Raise e => Raise e
  end.

Notation "x <- m ;; k" := (bind m (fun x => k))
  (at level 61, m at next level, right associativity).

(** Python's float division: a zero divisor raises. *)
Definition py_div (a b : R) : result R :=
  if Req_dec_T b 0 then Raise ZeroDivisionError else Ok (a / b).

(** [math.sqrt]: a negative argument raises. *)
Definition py_sqrt (a : R) : result R :=
  if Rlt_dec a 0 then Raise ValueError else Ok (sqrt a).

(** ** Planet (gravity.py, lines 25-33) *)

Record Planet : Type := mkPlanet {
  x : R;
  y : R;
  vx : R;
  vy : R;
  mass : R;
  radius : R;
  color : Z * Z * Z
}.

(** [Planet.__init__]: the velocity fields are set to [0.0]. *)
Definition Planet_init (x0 y0 mass0 radius0 : R) (color0 : Z * Z * Z) : Planet :=
  {| x := x0; y := y0; vx := 0; vy := 0;
     mass := mass0; radius := radius0; color := color0 |}.

Definition set_vx (p : Planet) (v : R) : Planet :=
  {| x := x p; y := y p; vx := v; vy := vy p;
     mass := mass p; radius := radius p; color := color p |}.

Definition set_vy (p : Planet) (v : R) : Planet :=
  {| x := x p; y := y p; vx := vx p; vy := v;
     mass := mass p; radius := radius p; color := color p |}.

Definition set_x (p : Planet) (v : R) : Planet :=
  {| x := v; y := y p; vx := vx p; vy := vy p;
     mass := mass p; radius := radius p; color := color p |}.

Definition set_y (p : Planet) (v : R) : Planet :=
  {| x := x p; y := v; vx := vx p; vy := vy p;
     mass := mass p; radius := radius p; color := color p |}.

(** The invariant of the data model: positive mass and radius. *)
Definition valid_body (p : Planet) : Prop := 0 < mass p /\ 0 < radius p.

(** Distance between the two centres, as both pair functions compute it. *)
Definition dist_sq_of (p1 p2 : Planet) : R :=
  (x p2 - x p1) * (x p2 - x p1) + (y p2 - y p1) * (y p2 - y p1).

Definition dist_of (p1 p2 : Planet) : R := sqrt (dist_sq_of p1 p2).

(** ** Physics functions (gravity.py, lines 73-127) *)

(** [apply_gravity(p1, p2)]: the two planets after the call. *)
Definition apply_gravity (p1 p2 : Planet) : result (Planet * Planet) :=
  let dx := x p2 - x p1 in
  let dy := y p2 - y p1 in
  let dist_sq := dx * dx + dy * dy in
  if Req_dec_T dist_sq 0 then Ok (p1, p2)
  else
    dist <- py_sqrt dist_sq ;;
    if Rgt_dec dist (radius p1 + radius p2 + 5) then
      force <- py_div (G * mass p1 * mass p2) dist_sq ;;
      fx <- py_div (force * dx) dist ;;
      fy <- py_div (force * dy) dist ;;
      ax1 <- py_div fx (mass p1) ;;
      let p1 := set_vx p1 (vx p1 + ax1 * DT) in
      ay1 <- py_div fy (mass p1) ;;
      let p1 := set_vy p1 (vy p1 + ay1 * DT) in
      ax2 <- py_div fx (mass p2) ;;
      let p2 := set_vx p2 (vx p2 - ax2 * DT) in
      ay2 <- py_div fy (mass p2) ;;
      let p2 := set_vy p2 (vy p2 - ay2 * DT) in
      Ok (p1, p2)
    else Ok (p1, p2).

(** [clamp_velocity(p)] *)
Definition clamp_velocity (p : Planet) : result Planet :=
  v <- py_sqrt (vx p ^ 2 + vy p ^ 2) ;;
  if Rgt_dec v MAX_VELOCITY then
    scale <- py_div MAX_VELOCITY v ;;
    let p := set_vx p (vx p * scale) in
    let p := set_vy p (vy p * scale) in
    Ok p
  else Ok p.

(** [update_position(p)], statement group by statement group.  Lines
    98-99: the move. *)
Definition advance (p : Planet) : Planet :=
  let p := set_x p (x p + vx p * DT * 60) in
  set_y p (y p + vy p * DT * 60).

(** Lines 102-104: the left wall. *)
Definition bounce_left (p : Planet) : Planet :=
  if Rlt_dec (x p - radius p) 0
  then set_vx (set_x p (radius p)) (vx p * -0.8)
  else p.

(** Lines 105-107: the right wall. *)
Definition bounce_right (p : Planet) : Planet :=
  if Rgt_dec (x p + radius p) WIDTH
  then set_vx (set_x p (WIDTH - radius p)) (vx p * -0.8)
  else p.

(** Lines 108-110: the top wall. *)
Definition bounce_top (p : Planet) : Planet :=
  if Rlt_dec (y p - radius p) 0
  then set_vy (set_y p (radius p)) (vy p * -0.8)
  else p.

(** Lines 111-113: the bottom wall. *)
Definition bounce_bottom (p : Planet) : Planet :=
  if Rgt_dec (y p + radius p) HEIGHT
  then set_vy (set_y p (HEIGHT - radius p)) (vy p * -0.8)
  else p.

(** The whole function: no partial operation, hence total. *)
Definition update_position (p : Planet) : Planet :=
  bounce_bottom (bounce_top (bounce_right (bounce_left (advance p)))).

(** [handle_collision(p1, p2)] *)
Definition handle_collision (p1 p2 : Planet) : result (Planet * Planet) :=
  let dx := x p2 - x p1 in
  let dy := y p2 - y p1 in
  dist <- py_sqrt (dx * dx + dy * dy) ;;
  let min_dist := radius p1 + radius p2 in
  if Rlt_dec dist min_dist then
    if Rgt_dec dist 0 then
      let overlap := 0.5 * (min_dist - dist) in
      nx <- py_div dx dist ;;
      ny <- py_div dy dist ;;
      let p1 := set_x p1 (x p1 - nx * overlap) in
      let p1 := set_y p1 (y p1 - ny * overlap) in
      let p2 := set_x p2 (x p2 + nx * overlap) in
      let p2 := set_y p2 (y p2 + ny * overlap) in
      Ok (p1, p2)
    else Ok (p1, p2)
  else Ok (p1, p2).

(** The Motion Integrator on one body: the body of the update loop. *)
Definition integrate (p : Planet) : result Planet :=
  p' <- clamp_velocity p ;;
  Ok (update_position p').

(** ** The main loop's physics passes (gravity.py, lines 154-172) *)

(** [planets[i]] after the object at index [i] has been mutated into [p]. *)
Fixpoint store (ps : list Planet) (i : nat) (p : Planet) : list Planet :=
  match ps, i with
  | [], _ => []
  | _ :: tl, O => p :: tl
  | q :: tl, S i' => q :: store tl i' p
  end.

Section PairPass.

(** The function called on every pair: [apply_gravity] or
    [handle_collision]. *)
Variable f : Planet -> Planet -> result (Planet * Planet).

(** [for j in js: f(planets[i], planets[j])].  [p1 = planets[i]] is a
    reference to the object in the list: reading index [i] again at each
    iteration yields that object as mutated so far, and the two objects
    of a pair are distinct because [i < j]. *)
Fixpoint inner_loop (i : nat) (js : list nat) (ps : list Planet)
  : result (list Planet) :=
  match js with
  | [] => Ok ps
  | j :: js' =>
      match nth_error ps i, nth_error ps j with
      | Some p1, Some p2 =>
          q <- f p1 p2 ;;
          inner_loop i js' (store (store ps i (fst q)) j (snd q))
      | _, _ => Raise IndexError
      end
  end.

(** [for i in idx: for j in range(i + 1, n): ...] *)
Fixpoint outer_loop (n : nat) (idx : list nat) (ps : list Planet)
  : result (list Planet) :=
  match idx with
  | [] => Ok ps
  | i :: idx' =>
      ps' <- inner_loop i (seq (i + 1) (n - (i + 1))) ps ;;
      outer_loop n idx' ps'
  end.

(** [for i in range(n - 1): for j in range(i + 1, n): ...] *)
Definition pair_pass (n : nat) (ps : list Planet) : result (list Planet) :=
  outer_loop n (seq 0 (n - 1)) ps.

End PairPass.

(** [for p in planets: clamp_velocity(p); update_position(p)] *)
Fixpoint update_pass (ps : list Planet) : result (list Planet) :=
  match ps with
  | [] => Ok []
  | p :: tl =>
      p' <- integrate p ;;
      tl' <- update_pass tl ;;
      Ok (p' :: tl')
  end.

(** One Simulation Step: [n = len(planets)], then gravity, integration and
    collision in this order. *)
Definition simulation_step (ps : list Planet) : result (list Planet) :=
  let n := length ps in
  ps1 <- pair_pass apply_gravity n ps ;;
  ps2 <- update_pass ps1 ;;
  pair_pass handle_collision n ps2.

(** [k] Simulation Steps in a row. *)
Fixpoint run (k : nat) (ps : list Planet) : result (list Planet) :=
  match k with
  | O => Ok ps
  | S k' => ps' <- simulation_step ps ;; run k' ps'
  end.

(** The spawn on [MOUSEBUTTONDOWN] (lines 147-152): a click outside both
    input boxes appends a fresh planet at the pointer position. *)
Definition spawn (ps : list Planet) (in_mass_box in_radius_box : bool)
    (pos : R * R) (mass0 radius0 : R) (color0 : Z * Z * Z) : list Planet :=
  if negb (in_mass_box || in_radius_box)
  then ps ++ [Planet_init (fst pos) (snd pos) mass0 radius0 color0]
  else ps.

(** ** The loops as a transition relation

    The same three passes, written as the loops run: one rule per way a
    loop iteration can go.  [exec_inner f n i j ps r] runs the inner loop
    from index [j] up to [n]; [exec_outer f n i ps r] runs the outer loop
    from index [i] up to [n - 1]. *)






(** ** The user interface (gravity.py, lines 18-22, 38-70, 131-152) *)

Definition rgb : Type := (Z * Z * Z)%type.

Definition WHITE : rgb := (255, 255, 255)%Z.
Definition GRAY : rgb := (100, 100, 100)%Z.
Definition LIGHT_GRAY : rgb := (180, 180, 180)%Z.
Definition BLACK : rgb := (0, 0, 0)%Z.

(** A Python [str], as the list of its code points. *)
Definition pystr : Type := list N.

(** The string ["."]. *)
Definition str_dot : pystr := [46%N].

(** [a == b] on strings. *)
Definition str_eqb (a b : pystr) : bool :=
  if list_eq_dec N.eq_dec a b then true else false.

(** [pygame.Rect(x, y, w, h)] *)
Record Rect : Type := mkRect {
  rect_x : Z;
  rect_y : Z;
  rect_w : Z;
  rect_h : Z
}.

(** The keys [handle_event] tells apart. *)
Inductive key : Set :=
| K_RETURN
| K_BACKSPACE
| K_other.

(** The events the main loop tells apart, with the attributes it reads. *)
Inductive event : Type :=
| QUIT
| MOUSEBUTTONDOWN (pos : Z * Z)
| KEYDOWN (k : key) (unicode : pystr)
| other_event.

(** [InputBox].  The rendered surface is represented by the text that
    was rendered on it. *)
Record InputBox : Type := mkInputBox {
  rect : Rect;
  box_color : rgb;
  text : pystr;
  txt_surface : pystr;
  active : bool
}.

(** [InputBox.__init__] *)
Definition InputBox_init (x0 y0 w h : Z) (text0 : pystr) : InputBox :=
  {| rect := mkRect x0 y0 w h; box_color := GRAY; text := text0;
     txt_surface := text0; active := false |}.

Definition set_focus (b : InputBox) (a : bool) (c : rgb) : InputBox :=
  {| rect := rect b; box_color := c; text := text b;
     txt_surface := txt_surface b; active := a |}.

Definition set_text (b : InputBox) (t : pystr) : InputBox :=
  {| rect := rect b; box_color := box_color b; text := t;
     txt_surface := txt_surface b; active := active b |}.

(** [self.txt_surface = font.render(self.text, True, WHITE)] *)
Definition render (b : InputBox) : InputBox :=
  {| rect := rect b; box_color := box_color b; text := text b;
     txt_surface := text b; active := active b |}.

(** The state of the main loop between two physics passes. *)
Record World : Type := mkWorld {
  running : bool;
  mass_box : InputBox;
  radius_box : InputBox;
  planets : list Planet
}.

Section Widgets.

(** Three functions of Python and pygame the interface calls:
    [str.isdigit], [float] (with [None] for a [ValueError]) and
    [pygame.Rect.collidepoint]. *)
Variable isdigit : pystr -> bool.
Variable py_float : pystr -> option R.
Variable collidepoint : Rect -> Z * Z -> bool.

(** [InputBox.handle_event] *)
Definition handle_event (b : InputBox) (e : event) : InputBox :=
  let b :=
    match e with
    | MOUSEBUTTONDOWN pos =>
        let a := collidepoint (rect b) pos in
        set_focus b a (if a then LIGHT_GRAY else GRAY)
    | _ => b
    end in
  match e with
  | KEYDOWN k unicode =>
      if active b then
        let b :=
          match k with
          | K_RETURN => set_focus b false GRAY
          | K_BACKSPACE => set_text b (removelast (text b))
          | K_other =>
              if ((length (text b) <? 5)%nat
                  && (isdigit unicode || str_eqb unicode str_dot))%bool
              then set_text b (text b ++ unicode)
              else b
          end in
        render b
      else b
  | _ => b
  end.

(** [InputBox.get_value] *)
Definition get_value (b : InputBox) (default : R) : R :=
  match py_float (text b) with
  | Some v => v
  | None => default
  end.

(** One iteration of [for event in pygame.event.get()], lines 141-152;
    [rnd] is the colour the three [random.randint(100, 255)] draw when a
    planet is spawned. *)
Definition process_event (w : World) (e : event) (rnd : rgb) : World :=
  let run :=
    match e with
    | QUIT => false
    | _ => running w
    end in
  let mb := handle_event (mass_box w) e in
  let rb := handle_event (radius_box w) e in
  let ps :=
    match e with
    | MOUSEBUTTONDOWN pos =>
        spawn (planets w)
              (collidepoint (rect mb) pos) (collidepoint (rect rb) pos)
              (IZR (fst pos), IZR (snd pos))
              (get_value mb 50) (get_value rb 10) rnd
    | _ => planets w
    end in
  {| running := run; mass_box := mb; radius_box := rb; planets := ps |}.

(** The whole event loop of one frame. *)
Fixpoint process_events (w : World) (es : list (event * rgb)) : World :=
  match es with
  | [] => w
  | (e, rnd) :: es' => process_events (process_event w e rnd) es'
  end.

(** One box through a sequence of events. *)
Fixpoint handle_events (b : InputBox) (es : list event) : InputBox :=
  match es with
  | [] => b
  | e :: es' => handle_events (handle_event b e) es'
  end.

(** One iteration of [while running]: the events, then the physics. *)
Definition frame (w : World) (es : list (event * rgb)) : result World :=
  let w := process_events w es in
  ps <- simulation_step (planets w) ;;
  Ok {| running := running w; mass_box := mass_box w;
        radius_box := radius_box w; planets := ps |}.

(** [while running]: the frames of a session, each with the events it
    receives; the loop is left at the head of the first frame that finds
    [running] false. *)
Fixpoint session (w : World) (fs : list (list (event * rgb)))
  : result World :=
  match fs with
  | [] => Ok w
  | es :: fs' =>
      if running w then w' <- frame w es ;; session w' fs' else Ok w
  end.

End Widgets.

(** The state before the first frame (lines 130-135): ["50"] and ["10"]
    in the two boxes, no planet. *)
Definition initial_world : World :=
  {| running := true;
     mass_box := InputBox_init 10 10 80 30 [53%N; 48%N];
     radius_box := InputBox_init 100 10 80 30 [49%N; 48%N];
     planets := [] |}.

(** An event as the keyboard and the mouse of pygame deliver it: the
    [unicode] of a key press is one character or empty. *)
Definition single_key (e : event) : Prop :=
  match e with
  | KEYDOWN _ unicode => (length unicode <= 1)%nat
  | _ => True
  end.

(** A character the text boxes accept: a digit for [isdigit], or a dot. *)
Definition accepted (isdigit : pystr -> bool) (c : N) : Prop :=
  isdigit [c] = true \/ c = 46%N.

(** What is drawn agrees with the state: the frame colour tells whether
    the box is active, and the rendered text is the text. *)
Definition in_sync (b : InputBox) : Prop :=
  box_color b = (if active b then LIGHT_GRAY else GRAY) /\
  txt_surface b = text b.

(** A click that hits the box [b]. *)
Definition hits (collidepoint : Rect -> Z * Z -> bool) (b : InputBox)
    (e : event) : bool :=
  match e with
  | MOUSEBUTTONDOWN pos => collidepoint (rect b) pos
  | _ => false
  end.

Definition is_quit (e : event) : bool :=
  match e with
  | QUIT => true
  | _ => false
  end.

Definition is_click (e : event) : bool :=
  match e with
  | MOUSEBUTTONDOWN _ => true
  | _ => false
  end.

(** Stand-ins for the three library functions, used to run the examples:
    ASCII digits, no parsable text, and the half-open rectangle. *)
Definition ascii_isdigit (s : pystr) : bool :=
  match s with
  | [] => false
  | _ => forallb (fun c => ((48 <=? c)%N && (c <=? 57)%N)%bool) s
  end.

Definition never_float (s : pystr) : option R := None.

Definition half_open_collidepoint (r : Rect) (pos : Z * Z) : bool :=
  ((rect_x r <=? fst pos)%Z && (fst pos <? rect_x r + rect_w r)%Z &&
   (rect_y r <=? snd pos)%Z && (snd pos <? rect_y r + rect_h r)%Z)%bool.

(** ** Derived quantities *)

(** The speed [clamp_velocity] computes. *)
Definition speed (p : Planet) : R := sqrt (vx p ^ 2 + vy p ^ 2).


(** None of the four wall tests of [update_position] fires for [p]. *)
Definition stays_inside (p : Planet) : Prop :=
  0 <= x p + vx p * DT * 60 - radius p /\
  x p + vx p * DT * 60 + radius p <= WIDTH /\
  0 <= y p + vy p * DT * 60 - radius p /\
  y p + vy p * DT * 60 + radius p <= HEIGHT.

(** A body that can be divided by: what the passes need of a mass. *)
Definition has_mass (p : Planet) : Prop := mass p <> 0.

(** ** Totals over the collection *)



(** The velocity change [apply_gravity] gives the first body of a pair. *)
Definition pull_x (p1 p2 : Planet) : R :=
  G * mass p1 * mass p2 / dist_sq_of p1 p2 * (x p2 - x p1) / dist_of p1 p2
  / mass p1 * DT.
Definition pull_y (p1 p2 : Planet) : R :=
  G * mass p1 * mass p2 / dist_sq_of p1 p2 * (y p2 - y p1) / dist_of p1 p2
  / mass p1 * DT.

(** What the physics reads of a body but never writes, and the two
    parts of its state. *)
Definition params (p : Planet) : R * R * (Z * Z * Z) :=
  (mass p, radius p, color p).
Definition position (p : Planet) : R * R := (x p, y p).
Definition velocity (p : Planet) : R * R := (vx p, vy p).

(** ** Concrete bodies used in the examples below *)

Definition white : Z * Z * Z := (255, 255, 255)%Z.

(** The scenario of the specification: mass 100, radius 10, at rest, 100
    units apart on the x axis. *)
Definition left_body : Planet := Planet_init 100 400 100 10 white.
Definition right_body : Planet := Planet_init 200 400 100 10 white.

(** Two overlapping bodies: centres 12 apart, radii 10 each. *)
Definition near_body : Planet := Planet_init 112 400 100 10 white.

(** A body over the left wall, moving left faster than [MAX_VELOCITY]. *)
Definition fast_leaver : Planet := mkPlanet 5 400 (-50) 0 50 10 white.

(** A body over the left wall, moving left slowly. *)
Definition slow_leaver : Planet := mkPlanet 5 400 (-10) 0 50 10 white.


(** A body at rest whose diameter exceeds both arena dimensions. *)
Definition wide_body : Planet := Planet_init 600 400 50 700 white.

(** Three bodies on a line: the first two far apart, the first and the
    third overlapping. *)
Definition trio : list Planet := [left_body; right_body; near_body].

(** A body at rest well inside the arena, as two clicks on the same
    pixel spawn it twice. *)
Definition resting_body : Planet := Planet_init 300 300 50 10 white.

(** A body whose mass box read zero. *)
Definition massless_body : Planet := Planet_init 100 400 0 10 white.

(** The mass box after a click inside it. *)
Definition focused_box : InputBox :=
  mkInputBox (mkRect 10 10 80 30) LIGHT_GRAY [53%N; 48%N] [53%N; 48%N] true.

(** Some key presses and clicks: a click in the mass box, four digits,
    a backspace, a click in the middle of the arena. *)
Definition some_events : list event :=
  [MOUSEBUTTONDOWN (20, 20)%Z;
   KEYDOWN K_other [49%N]; KEYDOWN K_other [50%N];
   KEYDOWN K_other [51%N]; KEYDOWN K_other [52%N];
   KEYDOWN K_BACKSPACE []; MOUSEBUTTONDOWN (600, 400)%Z].

(** ** Proof automation *)

(** Destructs every guard and every partial operation in the goal. *)
Ltac split_guards :=
  repeat match goal with
  | |- context [Req_dec_T ?a ?b] => destruct (Req_dec_T a b)
  | |- context [Rlt_dec ?a ?b] => destruct (Rlt_dec a b)
  | |- context [Rgt_dec ?a ?b] => destruct (Rgt_dec a b)
  | |- _ => progress cbn [bind set_x set_y set_vx set_vy
                          x y vx vy mass radius color]
  end.

(** * Properties *)

(** ** Arithmetic helpers *)

Lemma py_sqrt_ok (a : R) : 0 <= a -> py_sqrt a = Ok (sqrt a).
Proof.
  intros Ha. unfold py_sqrt.
  destruct (Rlt_dec a 0) as [Hneg | _]; [lra | reflexivity].
Qed.

Lemma py_div_ok (a b : R) : b <> 0 -> py_div a b = Ok (a / b).
Proof.
  intros Hb. unfold py_div.
  destruct (Req_dec_T b 0) as [H0 | _]; [contradiction | reflexivity].
Qed.

Lemma py_div_zero (a : R) : py_div a 0 = Raise ZeroDivisionError.
Proof.
  unfold py_div.
  destruct (Req_dec_T 0 0) as [_ | H0];
    [reflexivity | contradiction H0; reflexivity].
Qed.

Lemma sum_squares_nonneg (a b : R) : 0 <= a * a + b * b.
Proof. nra. Qed.

Lemma dist_sq_of_nonneg (p1 p2 : Planet) : 0 <= dist_sq_of p1 p2.
Proof. unfold dist_sq_of. apply sum_squares_nonneg. Qed.

Lemma sqrt_pos_of_nonzero (a : R) : 0 <= a -> a <> 0 -> 0 < sqrt a.
Proof. intros Ha Hz. apply sqrt_lt_R0. lra. Qed.

(** ** Exact results of the four physics functions *)

(** Outside the contact range [apply_gravity] returns normally and adds
    the impulse written in the source. *)
Lemma apply_gravity_far (p1 p2 : Planet) :
  mass p1 <> 0 -> mass p2 <> 0 ->
  dist_sq_of p1 p2 <> 0 ->
  dist_of p1 p2 > radius p1 + radius p2 + 5 ->
  let force := G * mass p1 * mass p2 / dist_sq_of p1 p2 in
  let fx := force * (x p2 - x p1) / dist_of p1 p2 in
  let fy := force * (y p2 - y p1) / dist_of p1 p2 in
  apply_gravity p1 p2 =
    Ok (set_vy (set_vx p1 (vx p1 + fx / mass p1 * DT))
               (vy p1 + fy / mass p1 * DT),
        set_vy (set_vx p2 (vx p2 - fx / mass p2 * DT))
               (vy p2 - fy / mass p2 * DT)).
Proof.
  intros Hm1 Hm2 Hsq Hfar. unfold apply_gravity.
  fold (dist_sq_of p1 p2).
  destruct (Req_dec_T (dist_sq_of p1 p2) 0) as [H0 | _]; [contradiction |].
  rewrite (py_sqrt_ok _ (dist_sq_of_nonneg p1 p2)). cbn [bind].
  fold (dist_of p1 p2).
  destruct (Rgt_dec (dist_of p1 p2) (radius p1 + radius p2 + 5)) as [_ | Hn];
    [| contradiction].
  assert (Hd : dist_of p1 p2 <> 0).
  { pose proof (sqrt_pos_of_nonzero _ (dist_sq_of_nonneg p1 p2) Hsq) as Hp.
    unfold dist_of. lra. }
  rewrite (py_div_ok _ _ Hsq). cbn [bind].
  rewrite !(py_div_ok _ _ Hd). cbn [bind].
  rewrite (py_div_ok _ _ Hm1). cbn [bind set_vx mass].
  rewrite (py_div_ok _ _ Hm1). cbn [bind set_vx set_vy mass vx vy].
  rewrite (py_div_ok _ _ Hm2). cbn [bind set_vx mass].
  rewrite (py_div_ok _ _ Hm2). cbn [bind set_vx set_vy mass vx vy].
  reflexivity.
Qed.

(** Coincident centres: the early [return]. *)
Lemma apply_gravity_coincident (p1 p2 : Planet) :
  dist_sq_of p1 p2 = 0 -> apply_gravity p1 p2 = Ok (p1, p2).
Proof.
  intros H0. unfold apply_gravity. fold (dist_sq_of p1 p2).
  destruct (Req_dec_T (dist_sq_of p1 p2) 0) as [_ | Hn];
    [reflexivity | contradiction].
Qed.

(** At or inside the contact range the guarded block is not entered. *)
Lemma apply_gravity_near (p1 p2 : Planet) :
  dist_of p1 p2 <= radius p1 + radius p2 + 5 ->
  apply_gravity p1 p2 = Ok (p1, p2).
Proof.
  intros Hnear. unfold apply_gravity. fold (dist_sq_of p1 p2).
  destruct (Req_dec_T (dist_sq_of p1 p2) 0) as [_ | Hsq]; [reflexivity |].
  rewrite (py_sqrt_ok _ (dist_sq_of_nonneg p1 p2)). cbn [bind].
  fold (dist_of p1 p2).
  destruct (Rgt_dec (dist_of p1 p2) (radius p1 + radius p2 + 5)) as [Hgt | _];
    [lra | reflexivity].
Qed.

Lemma speed_arg_nonneg (p : Planet) : 0 <= vx p ^ 2 + vy p ^ 2.
Proof. nra. Qed.

Lemma clamp_velocity_slow (p : Planet) :
  speed p <= MAX_VELOCITY -> clamp_velocity p = Ok p.
Proof.
  intros Hs. unfold clamp_velocity.
  rewrite (py_sqrt_ok _ (speed_arg_nonneg p)). cbn [bind]. fold (speed p).
  destruct (Rgt_dec (speed p) MAX_VELOCITY) as [Hgt | _]; [lra | reflexivity].
Qed.

Lemma clamp_velocity_fast (p : Planet) :
  speed p > MAX_VELOCITY ->
  clamp_velocity p =
    Ok (set_vy (set_vx p (vx p * (MAX_VELOCITY / speed p)))
               (vy p * (MAX_VELOCITY / speed p))).
Proof.
  intros Hs. unfold clamp_velocity.
  rewrite (py_sqrt_ok _ (speed_arg_nonneg p)). cbn [bind]. fold (speed p).
  destruct (Rgt_dec (speed p) MAX_VELOCITY) as [_ | Hn]; [| contradiction].
  assert (Hv : speed p <> 0) by (unfold MAX_VELOCITY in Hs; lra).
  rewrite (py_div_ok _ _ Hv). reflexivity.
Qed.

(** Rescaling both components by [c >= 0] rescales the speed by [c]. *)
Lemma speed_scale (p : Planet) (c : R) :
  0 <= c ->
  speed (set_vy (set_vx p (vx p * c)) (vy p * c)) = c * speed p.
Proof.
  intros Hc. unfold speed. cbn [set_vx set_vy vx vy].
  replace ((vx p * c) ^ 2 + (vy p * c) ^ 2)
    with ((c * c) * (vx p ^ 2 + vy p ^ 2)) by ring.
  rewrite sqrt_mult_alt by nra.
  rewrite sqrt_square by exact Hc. reflexivity.
Qed.

Lemma speed_after_clamp (p : Planet) :
  speed p > MAX_VELOCITY ->
  speed (set_vy (set_vx p (vx p * (MAX_VELOCITY / speed p)))
                (vy p * (MAX_VELOCITY / speed p))) = MAX_VELOCITY.
Proof.
  intros Hs. unfold MAX_VELOCITY in *.
  assert (Hpos : 0 < speed p) by lra.
  rewrite speed_scale.
  - field. lra.
  - apply Rlt_le, Rdiv_lt_0_compat; lra.
Qed.

(** A speed is monotone in the squares of its components. *)
Lemma speed_le_of_squares (p q : Planet) :
  vx q ^ 2 <= vx p ^ 2 -> vy q ^ 2 <= vy p ^ 2 -> speed q <= speed p.
Proof.
  intros Hx Hy. unfold speed. apply sqrt_le_1_alt. lra.
Qed.

(** ** [update_position], one statement group at a time *)

Lemma planet_ext (p q : Planet) :
  x p = x q -> y p = y q -> vx p = vx q -> vy p = vy q ->
  mass p = mass q -> radius p = radius q -> color p = color q ->
  p = q.
Proof.
  destruct p, q; cbn [x y vx vy mass radius color].
  intros; subst; reflexivity.
Qed.

Lemma advance_fields (p : Planet) :
  x (advance p) = x p + vx p * DT * 60 /\
  y (advance p) = y p + vy p * DT * 60 /\
  vx (advance p) = vx p /\ vy (advance p) = vy p /\
  mass (advance p) = mass p /\ radius (advance p) = radius p /\
  color (advance p) = color p.
Proof. unfold advance. cbn. repeat split; reflexivity. Qed.

Lemma bounce_left_fields (p : Planet) :
  (y (bounce_left p) = y p /\ vy (bounce_left p) = vy p /\
   mass (bounce_left p) = mass p /\ radius (bounce_left p) = radius p /\
   color (bounce_left p) = color p) /\
  ((x p - radius p < 0 /\
    x (bounce_left p) = radius p /\ vx (bounce_left p) = vx p * -0.8) \/
   (0 <= x p - radius p /\
    x (bounce_left p) = x p /\ vx (bounce_left p) = vx p)).
Proof.
  unfold bounce_left.
  destruct (Rlt_dec (x p - radius p) 0) as [Hhit | Hmiss];
    cbn [set_x set_vx x y vx vy mass radius color];
    (split; [repeat split; reflexivity |]);
    [left | right]; repeat split; try reflexivity; lra.
Qed.

Lemma bounce_right_fields (p : Planet) :
  (y (bounce_right p) = y p /\ vy (bounce_right p) = vy p /\
   mass (bounce_right p) = mass p /\ radius (bounce_right p) = radius p /\
   color (bounce_right p) = color p) /\
  ((x p + radius p > WIDTH /\
    x (bounce_right p) = WIDTH - radius p /\
    vx (bounce_right p) = vx p * -0.8) \/
   (x p + radius p <= WIDTH /\
    x (bounce_right p) = x p /\ vx (bounce_right p) = vx p)).
Proof.
  unfold bounce_right.
  destruct (Rgt_dec (x p + radius p) WIDTH) as [Hhit | Hmiss];
    cbn [set_x set_vx x y vx vy mass radius color];
    (split; [repeat split; reflexivity |]);
    [left | right]; repeat split; try reflexivity; lra.
Qed.

Lemma bounce_top_fields (p : Planet) :
  (x (bounce_top p) = x p /\ vx (bounce_top p) = vx p /\
   mass (bounce_top p) = mass p /\ radius (bounce_top p) = radius p /\
   color (bounce_top p) = color p) /\
  ((y p - radius p < 0 /\
    y (bounce_top p) = radius p /\ vy (bounce_top p) = vy p * -0.8) \/
   (0 <= y p - radius p /\
    y (bounce_top p) = y p /\ vy (bounce_top p) = vy p)).
Proof.
  unfold bounce_top.
  destruct (Rlt_dec (y p - radius p) 0) as [Hhit | Hmiss];
    cbn [set_y set_vy x y vx vy mass radius color];
    (split; [repeat split; reflexivity |]);
    [left | right]; repeat split; try reflexivity; lra.
Qed.

Lemma bounce_bottom_fields (p : Planet) :
  (x (bounce_bottom p) = x p /\ vx (bounce_bottom p) = vx p /\
   mass (bounce_bottom p) = mass p /\ radius (bounce_bottom p) = radius p /\
   color (bounce_bottom p) = color p) /\
  ((y p + radius p > HEIGHT /\
    y (bounce_bottom p) = HEIGHT - radius p /\
    vy (bounce_bottom p) = vy p * -0.8) \/
   (y p + radius p <= HEIGHT /\
    y (bounce_bottom p) = y p /\ vy (bounce_bottom p) = vy p)).
Proof.
  unfold bounce_bottom.
  destruct (Rgt_dec (y p + radius p) HEIGHT) as [Hhit | Hmiss];
    cbn [set_y set_vy x y vx vy mass radius color];
    (split; [repeat split; reflexivity |]);
    [left | right]; repeat split; try reflexivity; lra.
Qed.

(** Brings the facts about the five statement groups of
    [update_position p] into the context, one case per combination of
    wall tests. *)
Ltac walls p :=
  unfold update_position;
  destruct (advance_fields p) as (?Hx & ?Hy & ?Hvx & ?Hvy & ?Hm & ?Hr & ?Hc);
  destruct (bounce_left_fields (advance p))
    as [(?Hy & ?Hvy & ?Hm & ?Hr & ?Hc)
        [(?Hhit & ?Hx & ?Hvx) | (?Hmiss & ?Hx & ?Hvx)]];
  destruct (bounce_right_fields (bounce_left (advance p)))
    as [(?Hy & ?Hvy & ?Hm & ?Hr & ?Hc)
        [(?Hhit & ?Hx & ?Hvx) | (?Hmiss & ?Hx & ?Hvx)]];
  destruct (bounce_top_fields (bounce_right (bounce_left (advance p))))
    as [(?Hx & ?Hvx & ?Hm & ?Hr & ?Hc)
        [(?Hhit & ?Hy & ?Hvy) | (?Hmiss & ?Hy & ?Hvy)]];
  destruct (bounce_bottom_fields
              (bounce_top (bounce_right (bounce_left (advance p)))))
    as [(?Hx & ?Hvx & ?Hm & ?Hr & ?Hc)
        [(?Hhit & ?Hy & ?Hvy) | (?Hmiss & ?Hy & ?Hvy)]].

(** [update_position] never speeds a body up: a reflection keeps 80% of
    the component it negates. *)
Lemma update_position_speed (p : Planet) :
  speed (update_position p) <= speed p.
Proof.
  apply speed_le_of_squares; walls p; nra.
Qed.

Lemma update_position_mass (p : Planet) : mass (update_position p) = mass p.
Proof. walls p; congruence. Qed.

Lemma update_position_radius (p : Planet) :
  radius (update_position p) = radius p.
Proof. walls p; congruence. Qed.

(** [handle_collision] on an overlapping pair with distinct centres. *)
Lemma handle_collision_overlap (p1 p2 : Planet) :
  0 < dist_of p1 p2 -> dist_of p1 p2 < radius p1 + radius p2 ->
  let overlap := 0.5 * (radius p1 + radius p2 - dist_of p1 p2) in
  let nx := (x p2 - x p1) / dist_of p1 p2 in
  let ny := (y p2 - y p1) / dist_of p1 p2 in
  handle_collision p1 p2 =
    Ok (set_y (set_x p1 (x p1 - nx * overlap)) (y p1 - ny * overlap),
        set_y (set_x p2 (x p2 + nx * overlap)) (y p2 + ny * overlap)).
Proof.
  intros Hpos Hlt. unfold handle_collision.
  fold (dist_sq_of p1 p2).
  rewrite (py_sqrt_ok _ (dist_sq_of_nonneg p1 p2)). cbn [bind].
  fold (dist_of p1 p2).
  destruct (Rlt_dec (dist_of p1 p2) (radius p1 + radius p2)) as [_ | Hn];
    [| contradiction].
  destruct (Rgt_dec (dist_of p1 p2) 0) as [_ | Hn]; [| lra].
  assert (Hd : dist_of p1 p2 <> 0) by lra.
  rewrite !(py_div_ok _ _ Hd). reflexivity.
Qed.

(** Otherwise (no overlap, or coincident centres) nothing moves. *)
Lemma handle_collision_skip (p1 p2 : Planet) :
  dist_of p1 p2 >= radius p1 + radius p2 \/ dist_of p1 p2 <= 0 ->
  handle_collision p1 p2 = Ok (p1, p2).
Proof.
  intros Hskip. unfold handle_collision.
  fold (dist_sq_of p1 p2).
  rewrite (py_sqrt_ok _ (dist_sq_of_nonneg p1 p2)). cbn [bind].
  fold (dist_of p1 p2).
  destruct (Rlt_dec (dist_of p1 p2) (radius p1 + radius p2)) as [Hlt | _];
    [| reflexivity].
  destruct (Rgt_dec (dist_of p1 p2) 0) as [Hgt | _]; [lra | reflexivity].
Qed.



(** ** The transition relation is functional, and the executable passes
    compute it *)












Lemma dist_of_value (p1 p2 : Planet) (d : R) :
  0 <= d -> dist_sq_of p1 p2 = d * d -> dist_of p1 p2 = d.
Proof.
  intros Hd Hsq. unfold dist_of. rewrite Hsq. apply sqrt_square. exact Hd.
Qed.

Lemma speed_value (p : Planet) (s : R) :
  0 <= s -> vx p ^ 2 + vy p ^ 2 = s * s -> speed p = s.
Proof.
  intros Hs Hsq. unfold speed. rewrite Hsq. apply sqrt_square. exact Hs.
Qed.

Lemma dist_left_right : dist_of left_body right_body = 100.
Proof.
  apply dist_of_value; [lra |].
  unfold dist_sq_of, left_body, right_body, Planet_init; cbn [x y]. ring.
Qed.

Lemma dist_left_near : dist_of left_body near_body = 12.
Proof.
  apply dist_of_value; [lra |].
  unfold dist_sq_of, left_body, near_body, Planet_init; cbn [x y]. ring.
Qed.

Lemma speed_fast_leaver : speed fast_leaver = 50.
Proof.
  apply speed_value; [lra |]. unfold fast_leaver; cbn [vx vy]. ring.
Qed.

Lemma speed_slow_leaver : speed slow_leaver = 10.
Proof.
  apply speed_value; [lra |]. unfold slow_leaver; cbn [vx vy]. ring.
Qed.


Lemma speed_wide_body : speed wide_body = 0.
Proof.
  apply speed_value; [lra |].
  unfold wide_body, Planet_init; cbn [vx vy]. ring.
Qed.

(** The scenario of the specification, evaluated: one [apply_gravity] on
    the pair gives each body the speed [G*100*100/100^2/100*DT] along x,
    with opposite signs. *)
Example apply_gravity_scenario :
  exists q1 q2,
    apply_gravity left_body right_body = Ok (q1, q2) /\
    vx q1 = G * 100 * 100 / (100 * 100) / 100 * DT /\
    vx q2 = - (G * 100 * 100 / (100 * 100) / 100 * DT) /\
    vy q1 = 0 /\ vy q2 = 0.
Proof.
  eexists. eexists. split.
  - apply apply_gravity_far.
    + unfold left_body, Planet_init; cbn [mass]. lra.
    + unfold right_body, Planet_init; cbn [mass]. lra.
    + unfold dist_sq_of, left_body, right_body, Planet_init; cbn [x y]. lra.
    + rewrite dist_left_right.
      unfold left_body, right_body, Planet_init; cbn [radius]. lra.
  - rewrite dist_left_right.
    unfold dist_sq_of, left_body, right_body, Planet_init, G, DT.
    cbn [set_vx set_vy x y vx vy mass radius].
    repeat split; field.
Qed.

(** Exactly at the contact margin ([dist = 10 + 10 + 5]) the strict
    comparison of the source is false and no force is applied. *)
Example apply_gravity_at_contact_margin :
  apply_gravity left_body (Planet_init 125 400 100 10 white)
  = Ok (left_body, Planet_init 125 400 100 10 white).
Proof.
  apply apply_gravity_near.
  rewrite (dist_of_value _ _ 25).
  - unfold left_body, Planet_init; cbn [radius]. lra.
  - lra.
  - unfold dist_sq_of, left_body, Planet_init; cbn [x y]. ring.
Qed.

(** ** Normal return of the physics functions *)

Lemma apply_gravity_returns (p1 p2 : Planet) :
  mass p1 <> 0 -> mass p2 <> 0 ->
  exists q1 q2, apply_gravity p1 p2 = Ok (q1, q2).
Proof.
  intros Hm1 Hm2.
  destruct (Req_dec_T (dist_sq_of p1 p2) 0) as [H0 | Hsq].
  - exists p1, p2. apply apply_gravity_coincident. exact H0.
  - destruct (Rgt_dec (dist_of p1 p2) (radius p1 + radius p2 + 5))
      as [Hfar | Hnear].
    + eexists. eexists. apply apply_gravity_far; assumption.
    + exists p1, p2. apply apply_gravity_near. lra.
Qed.

Lemma clamp_velocity_returns (p : Planet) :
  exists q, clamp_velocity p = Ok q.
Proof.
  destruct (Rgt_dec (speed p) MAX_VELOCITY) as [Hfast | Hslow].
  - eexists. apply clamp_velocity_fast. exact Hfast.
  - exists p. apply clamp_velocity_slow. lra.
Qed.

Lemma handle_collision_returns (p1 p2 : Planet) :
  exists q1 q2, handle_collision p1 p2 = Ok (q1, q2).
Proof.
  destruct (Rlt_dec (dist_of p1 p2) (radius p1 + radius p2)) as [Hlt | Hge].
  - destruct (Rgt_dec (dist_of p1 p2) 0) as [Hpos | Hzero].
    + eexists. eexists. apply handle_collision_overlap; assumption.
    + exists p1, p2. apply handle_collision_skip. right. lra.
  - exists p1, p2. apply handle_collision_skip. left. lra.
Qed.

Lemma integrate_returns (p : Planet) :
  exists c, clamp_velocity p = Ok c /\ integrate p = Ok (update_position c).
Proof.
  destruct (clamp_velocity_returns p) as [c Hc].
  exists c. split; [exact Hc |]. unfold integrate. rewrite Hc. reflexivity.
Qed.

(** ** What each function leaves alone *)

(** [apply_gravity] writes velocities only. *)
Lemma apply_gravity_frame (p1 p2 q1 q2 : Planet) :
  apply_gravity p1 p2 = Ok (q1, q2) ->
  (x q1 = x p1 /\ y q1 = y p1 /\ mass q1 = mass p1 /\ radius q1 = radius p1) /\
  (x q2 = x p2 /\ y q2 = y p2 /\ mass q2 = mass p2 /\ radius q2 = radius p2).
Proof.
  unfold apply_gravity, py_sqrt, py_div. split_guards;
    intros H; inversion H; subst; cbn; repeat split; reflexivity.
Qed.

(** [clamp_velocity] writes velocities only. *)
Lemma clamp_velocity_frame (p q : Planet) :
  clamp_velocity p = Ok q ->
  x q = x p /\ y q = y p /\ mass q = mass p /\ radius q = radius p.
Proof.
  unfold clamp_velocity, py_sqrt, py_div. split_guards;
    intros H; inversion H; subst; cbn; repeat split; reflexivity.
Qed.

(** [handle_collision] writes positions only. *)
Lemma handle_collision_frame (p1 p2 q1 q2 : Planet) :
  handle_collision p1 p2 = Ok (q1, q2) ->
  (vx q1 = vx p1 /\ vy q1 = vy p1 /\ mass q1 = mass p1 /\ radius q1 = radius p1) /\
  (vx q2 = vx p2 /\ vy q2 = vy p2 /\ mass q2 = mass p2 /\ radius q2 = radius p2).
Proof.
  unfold handle_collision, py_sqrt, py_div. split_guards;
    intros H; inversion H; subst; cbn; repeat split; reflexivity.
Qed.

(** A zero mass outside the contact range does raise: the hypothesis on
    the masses in C6 is what keeps the divisions defined. *)
Example apply_gravity_zero_mass_raises :
  apply_gravity (Planet_init 100 400 0 10 white) right_body
  = Raise ZeroDivisionError.
Proof.
  unfold apply_gravity, right_body, Planet_init, py_sqrt.
  cbn [x y vx vy mass radius].
  destruct (Req_dec_T _ 0) as [H0 | _]; [lra |].
  destruct (Rlt_dec _ 0) as [Hneg | _]; [lra |]. cbn [bind].
  replace ((200 - 100) * (200 - 100) + (400 - 400) * (400 - 400))
    with (100 * 100) by ring.
  rewrite sqrt_square by lra.
  destruct (Rgt_dec 100 (10 + 10 + 5)) as [_ | Hn]; [| lra].
  repeat (rewrite py_div_ok by lra; cbn [bind]).
  rewrite py_div_zero. reflexivity.
Qed.

(** ** The Motion Integrator *)

Lemma update_position_inside (p : Planet) :
  stays_inside p ->
  update_position p =
    set_y (set_x p (x p + vx p * DT * 60)) (y p + vy p * DT * 60).
Proof.
  intros (Hl & Hrt & Ht & Hb).
  apply planet_ext; cbn [set_x set_y x y vx vy mass radius color];
    walls p; try congruence; lra.
Qed.

(** The right and bottom tests come last, so their bound always holds. *)
Lemma update_position_right_bottom (p : Planet) :
  x (update_position p) <= WIDTH - radius p /\
  y (update_position p) <= HEIGHT - radius p.
Proof.
  split; walls p; lra.
Qed.

(** The left and top bounds survive the right and bottom tests only when
    the body fits between the walls. *)
Lemma update_position_left (p : Planet) :
  2 * radius p <= WIDTH -> radius p <= x (update_position p).
Proof.
  intros Hfit. walls p; lra.
Qed.

Lemma update_position_top (p : Planet) :
  2 * radius p <= HEIGHT -> radius p <= y (update_position p).
Proof.
  intros Hfit. walls p; lra.
Qed.

(** A body over the left wall and moving left is put back on it. *)
Lemma update_position_left_bounce (p : Planet) :
  x p - radius p < 0 -> vx p < 0 -> 2 * radius p <= WIDTH ->
  x (update_position p) = radius p /\
  vx (update_position p) = -0.8 * vx p.
Proof.
  intros Hout Hleft Hfit. unfold DT in *.
  split; walls p; unfold DT in *; lra.
Qed.

Lemma clamp_velocity_vx_sign (p c : Planet) :
  clamp_velocity p = Ok c -> vx p < 0 -> vx c < 0.
Proof.
  intros Hc Hneg.
  destruct (Rgt_dec (speed p) MAX_VELOCITY) as [Hfast | Hslow].
  - rewrite (clamp_velocity_fast p Hfast) in Hc. inversion Hc; subst.
    cbn [set_vx set_vy vx]. unfold MAX_VELOCITY in *.
    assert (0 < 25 / speed p) by (apply Rdiv_lt_0_compat; lra).
    nra.
  - rewrite clamp_velocity_slow in Hc by lra. inversion Hc; subst. exact Hneg.
Qed.

(** The pass on [fast_leaver], step by step: the clamp rescales
    [vx = -50] to [-25], the move takes the centre to [x = -20], the left
    wall test puts it back at [x = 10] and turns [vx] into [20]. *)
Lemma integrate_fast_leaver :
  integrate fast_leaver = Ok (mkPlanet 10 400 20 0 50 10 white).
Proof.
  unfold integrate.
  rewrite clamp_velocity_fast
    by (rewrite speed_fast_leaver; unfold MAX_VELOCITY; lra).
  rewrite speed_fast_leaver. cbn [bind]. f_equal.
  match goal with |- update_position ?c = _ => walls c end;
    unfold fast_leaver, MAX_VELOCITY, DT, WIDTH, HEIGHT in *;
    cbn [set_vx set_vy x y vx vy mass radius color] in *;
    try lra;
    apply planet_ext; cbn [x y vx vy mass radius color];
    try congruence; lra.
Qed.

(** The pass on [wide_body]: the left wall test moves the centre to
    [x = 700], the right wall test then moves it to [x = 500]; likewise
    the top wall test gives [y = 700] and the bottom one [y = 100]. *)
Lemma integrate_wide_body :
  integrate wide_body = Ok (mkPlanet 500 100 0 0 50 700 white).
Proof.
  unfold integrate.
  rewrite clamp_velocity_slow
    by (rewrite speed_wide_body; unfold MAX_VELOCITY; lra).
  cbn [bind]. f_equal.
  walls wide_body;
    unfold wide_body, Planet_init, DT, WIDTH, HEIGHT in *;
    cbn [x y vx vy mass radius color] in *;
    try lra;
    apply planet_ext; cbn [x y vx vy mass radius color];
    try congruence; lra.
Qed.

(** A body wider than the arena that starts over the left wall is moved
    twice, so the restriction on the radius in C8 and C3 is needed. *)
Example wide_body_bounces_twice :
  vx (update_position (mkPlanet 600 400 (-10) 0 50 700 white)) = -6.4 /\
  x (update_position (mkPlanet 600 400 (-10) 0 50 700 white)) = 500.
Proof.
  split;
    walls (mkPlanet 600 400 (-10) 0 50 700 white);
    unfold DT, WIDTH, HEIGHT in *;
    cbn [x y vx vy mass radius color] in *; lra.
Qed.

(** ** A collection of bodies with non-zero masses never raises *)

Lemma store_length (ps : list Planet) (i : nat) (p : Planet) :
  length (store ps i p) = length ps.
Proof.
  revert i. induction ps as [| q tl IH]; intros [| i]; cbn [store length];
    try reflexivity.
  rewrite IH. reflexivity.
Qed.

Lemma store_Forall (P : Planet -> Prop) (ps : list Planet) (i : nat)
    (p : Planet) :
  Forall P ps -> P p -> Forall P (store ps i p).
Proof.
  intros Hps Hp. revert i.
  induction Hps as [| q tl Hq Htl IH]; intros [| i]; cbn [store];
    constructor; auto.
Qed.

Lemma nth_error_Forall (P : Planet -> Prop) (ps : list Planet) (i : nat)
    (p : Planet) :
  Forall P ps -> nth_error ps i = Some p -> P p.
Proof.
  intros Hps Hi. rewrite Forall_forall in Hps.
  apply Hps. eapply nth_error_In. exact Hi.
Qed.

Lemma nth_error_in_range (ps : list Planet) (i : nat) :
  (i < length ps)%nat -> exists p, nth_error ps i = Some p.
Proof.
  intros Hi. destruct (nth_error ps i) as [p |] eqn:E.
  - exists p. reflexivity.
  - apply nth_error_None in E. lia.
Qed.

Section PairPassReturns.

Variable f : Planet -> Planet -> result (Planet * Planet).
Variable P : Planet -> Prop.
Hypothesis f_returns :
  forall p1 p2, P p1 -> P p2 ->
  exists q1 q2, f p1 p2 = Ok (q1, q2) /\ P q1 /\ P q2.

Lemma inner_loop_returns (n i : nat) (js : list nat) :
  (i < n)%nat -> Forall (fun j => (j < n)%nat) js ->
  forall ps, length ps = n -> Forall P ps ->
  exists ps', inner_loop f i js ps = Ok ps' /\
              length ps' = n /\ Forall P ps'.
Proof.
  intros Hi Hjs. induction Hjs as [| j js Hj Hrest IH]; intros ps Hlen HP.
  - exists ps. cbn [inner_loop]. auto.
  - cbn [inner_loop].
    destruct (nth_error_in_range ps i) as [p1 E1]; [lia |].
    destruct (nth_error_in_range ps j) as [p2 E2]; [lia |].
    rewrite E1, E2.
    destruct (f_returns p1 p2) as (q1 & q2 & Ef & H1 & H2).
    { eapply nth_error_Forall; eassumption. }
    { eapply nth_error_Forall; eassumption. }
    rewrite Ef. cbn [bind fst snd]. apply IH.
    + rewrite !store_length. exact Hlen.
    + apply store_Forall; [apply store_Forall |]; assumption.
Qed.

Lemma outer_loop_returns (n : nat) (idx : list nat) :
  Forall (fun i => (i < n)%nat) idx ->
  forall ps, length ps = n -> Forall P ps ->
  exists ps', outer_loop f n idx ps = Ok ps' /\
              length ps' = n /\ Forall P ps'.
Proof.
  intros Hidx. induction Hidx as [| i idx Hi Hrest IH]; intros ps Hlen HP.
  - exists ps. cbn [outer_loop]. auto.
  - cbn [outer_loop].
    destruct (inner_loop_returns n i (seq (i + 1) (n - (i + 1))) Hi)
      with (ps := ps) as (ps1 & E1 & Hlen1 & HP1); try assumption.
    { apply Forall_forall. intros j Hj. apply in_seq in Hj. lia. }
    rewrite E1. cbn [bind]. apply IH; assumption.
Qed.

Lemma pair_pass_returns (ps : list Planet) :
  Forall P ps ->
  exists ps', pair_pass f (length ps) ps = Ok ps' /\
              length ps' = length ps /\ Forall P ps'.
Proof.
  intros HP. unfold pair_pass. apply outer_loop_returns; auto.
  apply Forall_forall. intros i Hi. apply in_seq in Hi. lia.
Qed.

End PairPassReturns.

Lemma apply_gravity_keeps_mass (p1 p2 : Planet) :
  has_mass p1 -> has_mass p2 ->
  exists q1 q2, apply_gravity p1 p2 = Ok (q1, q2) /\
                has_mass q1 /\ has_mass q2.
Proof.
  unfold has_mass. intros H1 H2.
  destruct (apply_gravity_returns p1 p2 H1 H2) as (q1 & q2 & E).
  exists q1, q2. split; [exact E |].
  destruct (apply_gravity_frame _ _ _ _ E)
    as [(_ & _ & Hm1 & _) (_ & _ & Hm2 & _)].
  rewrite Hm1, Hm2. auto.
Qed.

Lemma handle_collision_keeps_mass (p1 p2 : Planet) :
  has_mass p1 -> has_mass p2 ->
  exists q1 q2, handle_collision p1 p2 = Ok (q1, q2) /\
                has_mass q1 /\ has_mass q2.
Proof.
  unfold has_mass. intros H1 H2.
  destruct (handle_collision_returns p1 p2) as (q1 & q2 & E).
  exists q1, q2. split; [exact E |].
  destruct (handle_collision_frame _ _ _ _ E)
    as [(_ & _ & Hm1 & _) (_ & _ & Hm2 & _)].
  rewrite Hm1, Hm2. auto.
Qed.

Lemma update_pass_returns (ps : list Planet) :
  Forall has_mass ps ->
  exists ps', update_pass ps = Ok ps' /\
              length ps' = length ps /\ Forall has_mass ps'.
Proof.
  intros HP. induction HP as [| p tl Hp Htl IH].
  - exists []. cbn [update_pass]. auto.
  - destruct IH as (tl' & Etl & Hlen & HP').
    destruct (integrate_returns p) as (c & Hc & Hi).
    exists (update_position c :: tl'). cbn [update_pass].
    rewrite Hi, Etl. cbn [bind length]. split; [reflexivity |].
    split; [rewrite Hlen; reflexivity |].
    constructor; [| exact HP'].
    unfold has_mass in *. rewrite update_position_mass.
    destruct (clamp_velocity_frame p c Hc) as (_ & _ & Hm & _).
    rewrite Hm. exact Hp.
Qed.

Lemma simulation_step_returns (ps : list Planet) :
  Forall has_mass ps ->
  exists ps', simulation_step ps = Ok ps' /\
              length ps' = length ps /\ Forall has_mass ps'.
Proof.
  intros HP. unfold simulation_step.
  destruct (pair_pass_returns apply_gravity has_mass
              apply_gravity_keeps_mass ps HP) as (ps1 & E1 & L1 & P1).
  rewrite E1. cbn [bind].
  destruct (update_pass_returns ps1 P1) as (ps2 & E2 & L2 & P2).
  rewrite E2. cbn [bind].
  destruct (pair_pass_returns handle_collision has_mass
              handle_collision_keeps_mass ps2 P2) as (ps3 & E3 & L3 & P3).
  replace (length ps) with (length ps2) by congruence.
  exists ps3. split; [exact E3 |]. split; [congruence | exact P3].
Qed.

Lemma run_returns (k : nat) :
  forall ps, Forall has_mass ps ->
  exists ps', run k ps = Ok ps' /\
              length ps' = length ps /\ Forall has_mass ps'.
Proof.
  induction k as [| k IH]; intros ps HP; cbn [run].
  - exists ps. auto.
  - destruct (simulation_step_returns ps HP) as (ps1 & E1 & L1 & P1).
    rewrite E1. cbn [bind].
    destruct (IH ps1 P1) as (ps2 & E2 & L2 & P2).
    exists ps2. split; [exact E2 |]. split; [congruence | exact P2].
Qed.


(** * The claims *)






(** C3, as stated, fails.  [wide_body] has positive mass and radius, but
    its diameter (1400) exceeds the arena width: after the pass its
    centre is at [x = 500], left of [radius = 700], so its left edge is
    at [-200]. *)
Lemma integrate_wide_body_leaves_arena :
  exists q,
    valid_body wide_body /\
    integrate wide_body = Ok q /\
    x q = 500 /\ radius q = 700 /\
    ~ (radius q <= x q).
Proof.
  exists (mkPlanet 500 100 0 0 50 700 white).
  split.
  { unfold valid_body, wide_body, Planet_init; cbn [mass radius]. lra. }
  split; [exact integrate_wide_body |].
  cbn [x radius]. repeat split; lra.
Qed.

(** C3, amended.  Boundary containment.  For every body whose diameter
    does not exceed the arena ([2 * radius <= WIDTH] and
    [2 * radius <= HEIGHT]), the Motion Integrator pass returns normally
    and afterwards [radius <= x <= WIDTH - radius] and
    [radius <= y <= HEIGHT - radius]. *)
Theorem integrate_boundary_containment (p : Planet) :
  2 * radius p <= WIDTH -> 2 * radius p <= HEIGHT ->
  exists q,
    integrate p = Ok q /\
    radius q <= x q <= WIDTH - radius q /\
    radius q <= y q <= HEIGHT - radius q.
Proof.
  intros Hw Hh.
  destruct (integrate_returns p) as (c & Hc & Hi).
  exists (update_position c). split; [exact Hi |].
  destruct (clamp_velocity_frame p c Hc) as (_ & _ & _ & Hr).
  rewrite update_position_radius.
  rewrite <- Hr in Hw, Hh.
  pose proof (update_position_right_bottom c) as [Hx Hy].
  pose proof (update_position_left c Hw) as Hl.
  pose proof (update_position_top c Hh) as Ht.
  repeat split; assumption.
Qed.

Lemma integrate_boundary_containment_witness :
  exists q,
    integrate fast_leaver = Ok q /\
    radius q <= x q <= WIDTH - radius q /\
    radius q <= y q <= HEIGHT - radius q.
Proof.
  apply (integrate_boundary_containment fast_leaver);
    unfold fast_leaver, WIDTH, HEIGHT; cbn [radius]; lra.
Defined.



(** C5.  No force at or inside the contact range.  When the centre
    distance is at most [radius_i + radius_j + 5] (equality included), or
    when the centres coincide ([dist = 0]), [apply_gravity] returns
    normally and both velocities are what they were: the pair is skipped,
    both bodies are returned as they came. *)
Theorem apply_gravity_contact_range_no_force (p1 p2 : Planet) :
  dist_of p1 p2 <= radius p1 + radius p2 + 5 \/ dist_of p1 p2 = 0 ->
  exists q1 q2,
    apply_gravity p1 p2 = Ok (q1, q2) /\
    vx q1 = vx p1 /\ vy q1 = vy p1 /\
    vx q2 = vx p2 /\ vy q2 = vy p2 /\
    q1 = p1 /\ q2 = p2.
Proof.
  intros Hskip. exists p1, p2. split.
  - destruct Hskip as [Hnear | Hzero].
    + apply apply_gravity_near. exact Hnear.
    + apply apply_gravity_coincident.
      apply sqrt_eq_0; [apply dist_sq_of_nonneg | exact Hzero].
  - repeat split; reflexivity.
Qed.

Lemma apply_gravity_contact_range_no_force_witness :
  exists q1 q2,
    apply_gravity left_body near_body = Ok (q1, q2) /\
    vx q1 = vx left_body /\ vy q1 = vy left_body /\
    vx q2 = vx near_body /\ vy q2 = vy near_body /\
    q1 = left_body /\ q2 = near_body.
Proof.
  apply (apply_gravity_contact_range_no_force left_body near_body).
  left. rewrite dist_left_near.
  unfold left_body, near_body, Planet_init; cbn [radius]. lra.
Defined.

(** C6.  No division by zero.  For bodies of positive mass and radius,
    every operation of the physics core returns normally: the divisions
    by [dist_sq], [dist] and the masses in [apply_gravity], by [v] in
    [clamp_velocity] and by [dist] in [handle_collision] are executed
    only where the divisor is not zero ([py_div] raises on a zero
    divisor), and [update_position] divides by nothing. *)
Theorem physics_core_never_divides_by_zero (p1 p2 : Planet) :
  valid_body p1 -> valid_body p2 ->
  (exists q1 q2, apply_gravity p1 p2 = Ok (q1, q2)) /\
  (exists c, clamp_velocity p1 = Ok c /\
             integrate p1 = Ok (update_position c)) /\
  (exists q1 q2, handle_collision p1 p2 = Ok (q1, q2)).
Proof.
  intros [Hm1 _] [Hm2 _]. split; [| split].
  - apply apply_gravity_returns; lra.
  - apply integrate_returns.
  - apply handle_collision_returns.
Qed.

Lemma physics_core_never_divides_by_zero_witness :
  (exists q1 q2, apply_gravity left_body right_body = Ok (q1, q2)) /\
  (exists c, clamp_velocity left_body = Ok c /\
             integrate left_body = Ok (update_position c)) /\
  (exists q1 q2, handle_collision left_body right_body = Ok (q1, q2)).
Proof.
  apply (physics_core_never_divides_by_zero left_body right_body).
  - unfold valid_body, left_body, Planet_init; cbn [mass radius]. lra.
  - unfold valid_body, right_body, Planet_init; cbn [mass radius]. lra.
Defined.



(** C8, as stated, fails.  [fast_leaver] has its left edge past [x = 0]
    and [vx = -50 < 0], but the pass clamps the velocity first: [vx]
    ends at [20 = -0.8 * -25], not at [40 = -0.8 * -50]. *)
Lemma integrate_bounce_uses_clamped_vx :
  exists q,
    x fast_leaver - radius fast_leaver < 0 /\
    vx fast_leaver < 0 /\
    integrate fast_leaver = Ok q /\
    x q = radius fast_leaver /\
    vx q = 20 /\
    vx q <> -0.8 * vx fast_leaver.
Proof.
  exists (mkPlanet 10 400 20 0 50 10 white).
  split; [unfold fast_leaver; cbn [x radius]; lra |].
  split; [unfold fast_leaver; cbn [vx]; lra |].
  split; [exact integrate_fast_leaver |].
  unfold fast_leaver; cbn [x vx radius]. repeat split; lra.
Qed.

(** C8, amended.  Left wall bounce.  For a body with [x - radius < 0],
    [vx < 0] and [2 * radius <= WIDTH], the Motion Integrator pass
    returns normally, puts the centre at [x = radius] (left edge on the
    wall) and sets [vx] to [-0.8] times the [vx] that [clamp_velocity]
    left: the [vx] before the pass when the speed is at most
    [MAX_VELOCITY], and [vx * MAX_VELOCITY / speed] otherwise. *)
Theorem integrate_left_wall_bounce (p : Planet) :
  x p - radius p < 0 -> vx p < 0 -> 2 * radius p <= WIDTH ->
  exists q,
    integrate p = Ok q /\
    x q = radius p /\
    (speed p <= MAX_VELOCITY -> vx q = -0.8 * vx p) /\
    (speed p > MAX_VELOCITY ->
       vx q = -0.8 * (vx p * (MAX_VELOCITY / speed p))).
Proof.
  intros Hout Hleft Hfit.
  destruct (integrate_returns p) as (c & Hc & Hi).
  exists (update_position c). split; [exact Hi |].
  destruct (clamp_velocity_frame p c Hc) as (Hx & _ & _ & Hr).
  pose proof (clamp_velocity_vx_sign p c Hc Hleft) as Hsign.
  rewrite <- Hx, <- Hr in Hout. rewrite <- Hr in Hfit.
  destruct (update_position_left_bounce c Hout Hsign Hfit) as [Hpos Hvel].
  rewrite Hpos, Hvel, Hr. split; [reflexivity |]. split.
  - intros Hslow. rewrite (clamp_velocity_slow p Hslow) in Hc.
    inversion Hc; subst c. reflexivity.
  - intros Hfast. rewrite (clamp_velocity_fast p Hfast) in Hc.
    inversion Hc; subst c. reflexivity.
Qed.

Lemma integrate_left_wall_bounce_witness :
  (exists q,
     integrate slow_leaver = Ok q /\
     x q = radius slow_leaver /\
     vx q = -0.8 * vx slow_leaver) /\
  (exists q,
     integrate fast_leaver = Ok q /\
     x q = radius fast_leaver /\
     vx q = -0.8 * (vx fast_leaver * (MAX_VELOCITY / speed fast_leaver))).
Proof.
  assert (Hslow : speed slow_leaver <= MAX_VELOCITY)
    by (rewrite speed_slow_leaver; unfold MAX_VELOCITY; lra).
  assert (Hfast : speed fast_leaver > MAX_VELOCITY)
    by (rewrite speed_fast_leaver; unfold MAX_VELOCITY; lra).
  split.
  - destruct (integrate_left_wall_bounce slow_leaver)
      as (q & Hq & Hx & Hv & _).
    + unfold slow_leaver; cbn [x radius]; lra.
    + unfold slow_leaver; cbn [vx]; lra.
    + unfold slow_leaver, WIDTH; cbn [radius]; lra.
    + exists q. split; [exact Hq |]. split; [exact Hx |]. exact (Hv Hslow).
  - destruct (integrate_left_wall_bounce fast_leaver)
      as (q & Hq & Hx & _ & Hv).
    + unfold fast_leaver; cbn [x radius]; lra.
    + unfold fast_leaver; cbn [vx]; lra.
    + unfold fast_leaver, WIDTH; cbn [radius]; lra.
    + exists q. split; [exact Hq |]. split; [exact Hx |]. exact (Hv Hfast).
Defined.

(** C9.  A spawned body is at rest.  For every position, mass, radius and
    colour, the planet built by [Planet.__init__] has [vx = 0] and
    [vy = 0], and a click outside both input boxes appends exactly this
    planet to the collection. *)
Theorem spawned_body_at_rest (ps : list Planet) (pos : R * R)
    (mass0 radius0 : R) (color0 : Z * Z * Z) :
  let q := Planet_init (fst pos) (snd pos) mass0 radius0 color0 in
  vx q = 0 /\ vy q = 0 /\
  spawn ps false false pos mass0 radius0 color0 = ps ++ [q].
Proof.
  cbn. repeat split; reflexivity.
Qed.



(** * Further properties of the physics functions *)

Lemma dist_sq_of_sym (p1 p2 : Planet) : dist_sq_of p2 p1 = dist_sq_of p1 p2.
Proof. unfold dist_sq_of. ring. Qed.

Lemma dist_of_sym (p1 p2 : Planet) : dist_of p2 p1 = dist_of p1 p2.
Proof. unfold dist_of. rewrite dist_sq_of_sym. reflexivity. Qed.

(** Outside the contact range a zero mass makes [apply_gravity] raise. *)
Lemma apply_gravity_far_raises (p1 p2 : Planet) :
  dist_sq_of p1 p2 <> 0 ->
  dist_of p1 p2 > radius p1 + radius p2 + 5 ->
  mass p1 = 0 \/ mass p2 = 0 ->
  apply_gravity p1 p2 = Raise ZeroDivisionError.
Proof.
  intros Hsq Hfar Hzero. unfold apply_gravity.
  fold (dist_sq_of p1 p2).
  destruct (Req_dec_T (dist_sq_of p1 p2) 0) as [H0 | _]; [contradiction |].
  rewrite (py_sqrt_ok _ (dist_sq_of_nonneg p1 p2)). cbn [bind].
  fold (dist_of p1 p2).
  destruct (Rgt_dec (dist_of p1 p2) (radius p1 + radius p2 + 5)) as [_ | Hn];
    [| contradiction].
  assert (Hd : dist_of p1 p2 <> 0).
  { pose proof (sqrt_pos_of_nonzero _ (dist_sq_of_nonneg p1 p2) Hsq) as Hp.
    unfold dist_of. lra. }
  rewrite (py_div_ok _ _ Hsq). cbn [bind].
  rewrite !(py_div_ok _ _ Hd). cbn [bind].
  destruct (Req_dec_T (mass p1) 0) as [Hm1 | Hm1].
  - rewrite Hm1, py_div_zero. reflexivity.
  - rewrite (py_div_ok _ _ Hm1). cbn [bind set_vx mass].
    rewrite (py_div_ok _ _ Hm1). cbn [bind set_vx set_vy mass vx vy].
    destruct Hzero as [Hz | Hz]; [contradiction |].
    rewrite Hz, py_div_zero. reflexivity.
Qed.

(** The two ways [apply_gravity] returns normally. *)
Lemma apply_gravity_inv (p1 p2 q1 q2 : Planet) :
  apply_gravity p1 p2 = Ok (q1, q2) ->
  (q1 = p1 /\ q2 = p2 /\
   (dist_sq_of p1 p2 = 0 \/ dist_of p1 p2 <= radius p1 + radius p2 + 5)) \/
  (dist_sq_of p1 p2 <> 0 /\
   dist_of p1 p2 > radius p1 + radius p2 + 5 /\
   mass p1 <> 0 /\ mass p2 <> 0 /\
   q1 = set_vy (set_vx p1 (vx p1 + pull_x p1 p2)) (vy p1 + pull_y p1 p2) /\
   q2 = set_vy (set_vx p2 (vx p2 - pull_x p1 p2 * mass p1 / mass p2))
               (vy p2 - pull_y p1 p2 * mass p1 / mass p2)).
Proof.
  intros Hok.
  destruct (Req_dec_T (dist_sq_of p1 p2) 0) as [H0 | Hsq].
  - rewrite (apply_gravity_coincident p1 p2 H0) in Hok.
    injection Hok as <- <-. left. auto.
  - destruct (Rgt_dec (dist_of p1 p2) (radius p1 + radius p2 + 5))
      as [Hfar | Hnear].
    + right.
      destruct (Req_dec_T (mass p1) 0) as [Hm1 | Hm1].
      { rewrite (apply_gravity_far_raises p1 p2 Hsq Hfar (or_introl Hm1))
          in Hok. discriminate. }
      destruct (Req_dec_T (mass p2) 0) as [Hm2 | Hm2].
      { rewrite (apply_gravity_far_raises p1 p2 Hsq Hfar (or_intror Hm2))
          in Hok. discriminate. }
      rewrite (apply_gravity_far p1 p2 Hm1 Hm2 Hsq Hfar) in Hok.
      injection Hok as <- <-.
      repeat (split; [assumption |]).
      assert (Hd : dist_of p1 p2 <> 0).
      { pose proof (sqrt_pos_of_nonzero _ (dist_sq_of_nonneg p1 p2) Hsq).
        unfold dist_of. lra. }
      split; unfold pull_x, pull_y; [reflexivity |].
      apply planet_ext; cbn [set_vx set_vy x y vx vy mass radius color];
        try reflexivity; field; auto.
    + assert (Hle : dist_of p1 p2 <= radius p1 + radius p2 + 5) by lra.
      rewrite (apply_gravity_near p1 p2 Hle) in Hok.
      injection Hok as <- <-. left. auto.
Qed.



(** X2.  [handle_collision] does not depend on the order of its two
    arguments either: the call on [(p2, p1)] returns the bodies of the
    call on [(p1, p2)], swapped. *)
Theorem handle_collision_swap (p1 p2 : Planet) :
  exists q1 q2,
    handle_collision p1 p2 = Ok (q1, q2) /\
    handle_collision p2 p1 = Ok (q2, q1).
Proof.
  destruct (Rlt_dec (dist_of p1 p2) (radius p1 + radius p2)) as [Hlt | Hge].
  - destruct (Rgt_dec (dist_of p1 p2) 0) as [Hpos | Hzero].
    + eexists. eexists. split.
      * apply handle_collision_overlap; [lra | exact Hlt].
      * rewrite handle_collision_overlap;
          [| rewrite dist_of_sym; lra | rewrite dist_of_sym; lra].
        rewrite dist_of_sym.
        f_equal. f_equal;
          apply planet_ext; cbn [set_x set_y x y vx vy mass radius color];
          try reflexivity; field; lra.
    + exists p1, p2. split; apply handle_collision_skip;
        [| rewrite dist_of_sym]; right; lra.
  - exists p1, p2. split; apply handle_collision_skip;
      [| rewrite dist_of_sym]; left; lra.
Qed.



(** ** What a whole pair pass keeps *)

Lemma nth_error_store_other (ps : list Planet) (i j : nat) (q : Planet) :
  i <> j -> nth_error (store ps i q) j = nth_error ps j.
Proof.
  revert i j. induction ps as [| p tl IH]; intros [| i] [| j] Hne;
    cbn [store nth_error]; try reflexivity; try contradiction.
  apply IH. intros E. apply Hne. rewrite E. reflexivity.
Qed.


Lemma map_store (A : Type) (h : Planet -> A) (ps : list Planet) (i : nat)
    (p q : Planet) :
  nth_error ps i = Some p -> h q = h p ->
  map h (store ps i q) = map h ps.
Proof.
  revert i. induction ps as [| a tl IH]; intros [| i] Hi Hh;
    cbn [store map nth_error] in *; try discriminate.
  - injection Hi as ->. rewrite Hh. reflexivity.
  - rewrite (IH i Hi Hh). reflexivity.
Qed.

Section PairPassKeeps.

Variable f : Planet -> Planet -> result (Planet * Planet).

(** A relation between the collection before and after, kept by every
    single pair update. *)
Variable keeps : list Planet -> list Planet -> Prop.
Hypothesis keeps_refl : forall ps, keeps ps ps.
Hypothesis keeps_trans :
  forall ps1 ps2 ps3, keeps ps1 ps2 -> keeps ps2 ps3 -> keeps ps1 ps3.
Hypothesis keeps_update :
  forall ps i j p1 p2 q1 q2,
    (i < j)%nat ->
    nth_error ps i = Some p1 -> nth_error ps j = Some p2 ->
    f p1 p2 = Ok (q1, q2) ->
    keeps ps (store (store ps i q1) j q2).

Lemma inner_loop_keeps (i : nat) (js : list nat) :
  Forall (fun j => (i < j)%nat) js ->
  forall ps ps', inner_loop f i js ps = Ok ps' -> keeps ps ps'.
Proof.
  intros Hjs. induction Hjs as [| j js Hj Hrest IH]; intros ps ps' Hrun;
    cbn [inner_loop] in Hrun.
  - injection Hrun as <-. apply keeps_refl.
  - destruct (nth_error ps i) as [p1 |] eqn:E1; [| discriminate].
    destruct (nth_error ps j) as [p2 |] eqn:E2; [| discriminate].
    destruct (f p1 p2) as [[q1 q2] | e] eqn:Ef; [| discriminate].
    cbn [bind fst snd] in Hrun.
    eapply keeps_trans; [| apply IH; exact Hrun].
    eapply keeps_update; eassumption.
Qed.

Lemma outer_loop_keeps (n : nat) (idx : list nat) :
  forall ps ps', outer_loop f n idx ps = Ok ps' -> keeps ps ps'.
Proof.
  induction idx as [| i idx IH]; intros ps ps' Hrun; cbn [outer_loop] in Hrun.
  - injection Hrun as <-. apply keeps_refl.
  - destruct (inner_loop f i (seq (i + 1) (n - (i + 1))) ps)
      as [ps1 |] eqn:E1; [| discriminate].
    cbn [bind] in Hrun.
    eapply keeps_trans; [| apply IH; exact Hrun].
    eapply inner_loop_keeps; [| exact E1].
    apply Forall_forall. intros j Hj. apply in_seq in Hj. lia.
Qed.

Lemma pair_pass_keeps (n : nat) (ps ps' : list Planet) :
  pair_pass f n ps = Ok ps' -> keeps ps ps'.
Proof. unfold pair_pass. apply outer_loop_keeps. Qed.

End PairPassKeeps.


(** A pair pass that keeps a field on every body keeps the list of its
    values (and so the number of bodies and their order). *)
Lemma pair_pass_map (A : Type)
    (f : Planet -> Planet -> result (Planet * Planet)) (h : Planet -> A) :
  (forall p1 p2 q1 q2,
     f p1 p2 = Ok (q1, q2) -> h q1 = h p1 /\ h q2 = h p2) ->
  forall n ps ps', pair_pass f n ps = Ok ps' -> map h ps' = map h ps.
Proof.
  intros Hpair n ps ps'.
  apply (pair_pass_keeps f (fun a b => map h b = map h a)).
  - reflexivity.
  - intros ps1 ps2 ps3 H12 H23. congruence.
  - intros l i j p1 p2 q1 q2 Hij H1 H2 Hf.
    destruct (Hpair _ _ _ _ Hf) as [Hq1 Hq2].
    assert (H2' : nth_error (store l i q1) j = Some p2).
    { rewrite nth_error_store_other by lia. exact H2. }
    rewrite (map_store A h _ j p2 q2 H2' Hq2).
    exact (map_store A h _ i p1 q1 H1 Hq1).
Qed.


(** The two ways [handle_collision] returns. *)
Lemma handle_collision_inv (p1 p2 q1 q2 : Planet) :
  handle_collision p1 p2 = Ok (q1, q2) ->
  (q1 = p1 /\ q2 = p2 /\
   (dist_of p1 p2 >= radius p1 + radius p2 \/ dist_of p1 p2 <= 0)) \/
  (0 < dist_of p1 p2 /\ dist_of p1 p2 < radius p1 + radius p2 /\
   let overlap := 0.5 * (radius p1 + radius p2 - dist_of p1 p2) in
   let nx := (x p2 - x p1) / dist_of p1 p2 in
   let ny := (y p2 - y p1) / dist_of p1 p2 in
   q1 = set_y (set_x p1 (x p1 - nx * overlap)) (y p1 - ny * overlap) /\
   q2 = set_y (set_x p2 (x p2 + nx * overlap)) (y p2 + ny * overlap)).
Proof.
  intros Hok.
  destruct (Rlt_dec (dist_of p1 p2) (radius p1 + radius p2)) as [Hlt | Hge].
  - destruct (Rgt_dec (dist_of p1 p2) 0) as [Hpos | Hzero].
    + right. rewrite handle_collision_overlap in Hok by lra.
      injection Hok as <- <-. repeat split; lra.
    + left. rewrite handle_collision_skip in Hok by (right; lra).
      injection Hok as <- <-. repeat split. right. lra.
  - left. rewrite handle_collision_skip in Hok by (left; lra).
    injection Hok as <- <-. repeat split. left. lra.
Qed.

Lemma apply_gravity_keeps (p1 p2 q1 q2 : Planet) :
  apply_gravity p1 p2 = Ok (q1, q2) ->
  (position q1 = position p1 /\ params q1 = params p1) /\
  (position q2 = position p2 /\ params q2 = params p2).
Proof.
  intros Hok.
  destruct (apply_gravity_inv p1 p2 q1 q2 Hok)
    as [(-> & -> & _) | (_ & _ & _ & _ & -> & ->)];
    repeat split; reflexivity.
Qed.

Lemma handle_collision_keeps (p1 p2 q1 q2 : Planet) :
  handle_collision p1 p2 = Ok (q1, q2) ->
  (velocity q1 = velocity p1 /\ params q1 = params p1) /\
  (velocity q2 = velocity p2 /\ params q2 = params p2).
Proof.
  intros Hok.
  destruct (handle_collision_inv p1 p2 q1 q2 Hok)
    as [(-> & -> & _) | (_ & _ & -> & ->)];
    repeat split; reflexivity.
Qed.


Lemma clamp_velocity_params (p c : Planet) :
  clamp_velocity p = Ok c -> params c = params p.
Proof.
  intros Hc.
  destruct (Rgt_dec (speed p) MAX_VELOCITY) as [Hfast | Hslow].
  - rewrite (clamp_velocity_fast p Hfast) in Hc. injection Hc as <-.
    reflexivity.
  - rewrite clamp_velocity_slow in Hc by lra. injection Hc as <-.
    reflexivity.
Qed.

Lemma update_position_params (p : Planet) :
  params (update_position p) = params p.
Proof.
  unfold params. walls p; (f_equal; [f_equal |]); congruence.
Qed.

Lemma integrate_params (p q : Planet) :
  integrate p = Ok q -> params q = params p.
Proof.
  unfold integrate. intros Hq.
  destruct (clamp_velocity p) as [c |] eqn:Hc; [| discriminate].
  cbn [bind] in Hq. injection Hq as <-.
  rewrite update_position_params. exact (clamp_velocity_params p c Hc).
Qed.

Lemma integrate_speed (p q : Planet) :
  integrate p = Ok q -> speed q <= MAX_VELOCITY.
Proof.
  unfold integrate. intros Hq.
  destruct (clamp_velocity p) as [c |] eqn:Hc; [| discriminate].
  cbn [bind] in Hq. injection Hq as <-.
  pose proof (update_position_speed c) as Hup.
  destruct (Rgt_dec (speed p) MAX_VELOCITY) as [Hfast | Hslow].
  - rewrite (clamp_velocity_fast p Hfast) in Hc. injection Hc as <-.
    rewrite (speed_after_clamp p Hfast) in Hup. exact Hup.
  - rewrite clamp_velocity_slow in Hc by lra. injection Hc as <-. lra.
Qed.

Lemma update_pass_params (ps ps' : list Planet) :
  update_pass ps = Ok ps' -> map params ps' = map params ps.
Proof.
  revert ps'. induction ps as [| p tl IH]; intros ps' Hrun;
    cbn [update_pass] in Hrun.
  - injection Hrun as <-. reflexivity.
  - destruct (integrate p) as [q |] eqn:Hq; [| discriminate].
    destruct (update_pass tl) as [tl' |]; [| discriminate].
    cbn [bind] in Hrun. injection Hrun as <-. cbn [map].
    rewrite (integrate_params p q Hq), (IH tl' eq_refl). reflexivity.
Qed.




Lemma trio_has_mass : Forall has_mass trio.
Proof.
  unfold trio. repeat constructor;
    unfold has_mass, left_body, right_body, near_body, Planet_init;
    cbn [mass]; lra.
Qed.




(** X5.  The gravity pass writes velocities only.  Whenever it returns
    normally, the collection has the same bodies in the same order, each
    at the position and with the mass, radius and colour it had. *)
Theorem gravity_pass_moves_nothing (n : nat) (ps ps' : list Planet) :
  pair_pass apply_gravity n ps = Ok ps' ->
  map position ps' = map position ps /\
  map params ps' = map params ps.
Proof.
  intros Hrun. split.
  - apply (pair_pass_map _ apply_gravity position) with (n := n);
      [| exact Hrun].
    intros p1 p2 q1 q2 Hf.
    destruct (apply_gravity_keeps p1 p2 q1 q2 Hf) as [[H1 _] [H2 _]]. auto.
  - apply (pair_pass_map _ apply_gravity params) with (n := n);
      [| exact Hrun].
    intros p1 p2 q1 q2 Hf.
    destruct (apply_gravity_keeps p1 p2 q1 q2 Hf) as [[_ H1] [_ H2]]. auto.
Qed.

Lemma gravity_pass_moves_nothing_witness :
  exists ps',
    pair_pass apply_gravity 3 trio = Ok ps' /\
    map position ps' = map position trio /\
    map params ps' = map params trio.
Proof.
  destruct (pair_pass_returns apply_gravity has_mass
              apply_gravity_keeps_mass trio trio_has_mass)
    as (ps' & Hrun & _).
  exists ps'. split; [exact Hrun |].
  exact (gravity_pass_moves_nothing 3 trio ps' Hrun).
Defined.



Lemma gravity_pass_params (n : nat) (ps ps' : list Planet) :
  pair_pass apply_gravity n ps = Ok ps' -> map params ps' = map params ps.
Proof.
  apply (pair_pass_map _ apply_gravity params).
  intros p1 p2 q1 q2 Hf.
  destruct (apply_gravity_keeps p1 p2 q1 q2 Hf) as [[_ H1] [_ H2]]. auto.
Qed.

Lemma collision_pass_params (n : nat) (ps ps' : list Planet) :
  pair_pass handle_collision n ps = Ok ps' -> map params ps' = map params ps.
Proof.
  apply (pair_pass_map _ handle_collision params).
  intros p1 p2 q1 q2 Hf.
  destruct (handle_collision_keeps p1 p2 q1 q2 Hf) as [[_ H1] [_ H2]]. auto.
Qed.


Lemma simulation_step_params (ps ps' : list Planet) :
  simulation_step ps = Ok ps' -> map params ps' = map params ps.
Proof.
  unfold simulation_step. intros Hrun.
  destruct (pair_pass apply_gravity (length ps) ps) as [ps1 |] eqn:E1;
    [| discriminate].
  cbn [bind] in Hrun.
  destruct (update_pass ps1) as [ps2 |] eqn:E2; [| discriminate].
  cbn [bind] in Hrun.
  pose proof (gravity_pass_params _ _ _ E1) as H1.
  pose proof (update_pass_params _ _ E2) as H2.
  pose proof (collision_pass_params _ _ _ Hrun) as H3.
  congruence.
Qed.

(** X7.  Simulation Steps never add, remove, reorder or resize bodies.
    Whenever [k] steps return normally, the final collection lists the
    same masses, radii and colours in the same order as the initial
    one; in particular it has the same length. *)
Theorem run_keeps_bodies (k : nat) (ps ps' : list Planet) :
  run k ps = Ok ps' ->
  map params ps' = map params ps /\ length ps' = length ps.
Proof.
  intros Hrun.
  assert (Hmap : map params ps' = map params ps).
  { revert ps Hrun. induction k as [| k IH]; intros ps Hrun;
      cbn [run] in Hrun.
    - injection Hrun as <-. reflexivity.
    - destruct (simulation_step ps) as [ps1 |] eqn:E1; [| discriminate].
      cbn [bind] in Hrun.
      rewrite (IH ps1 Hrun). exact (simulation_step_params ps ps1 E1). }
  split; [exact Hmap |].
  rewrite <- (length_map params ps'), Hmap. apply length_map.
Qed.

Lemma run_keeps_bodies_witness :
  exists ps',
    run 2 trio = Ok ps' /\
    map params ps' = map params trio /\ length ps' = length trio.
Proof.
  destruct (run_returns 2 trio trio_has_mass) as (ps' & Hrun & _).
  exists ps'. split; [exact Hrun |].
  exact (run_keeps_bodies 2 trio ps' Hrun).
Defined.



(** ** Single bodies and small collections *)





Lemma pair_pass_nil (f : Planet -> Planet -> result (Planet * Planet)) :
  pair_pass f 0 [] = Ok [].
Proof. reflexivity. Qed.

Lemma pair_pass_one (f : Planet -> Planet -> result (Planet * Planet))
    (p : Planet) :
  pair_pass f 1 [p] = Ok [p].
Proof. reflexivity. Qed.

Lemma pair_pass_two (f : Planet -> Planet -> result (Planet * Planet))
    (p1 p2 : Planet) :
  pair_pass f 2 [p1; p2] = (q <- f p1 p2 ;; Ok [fst q; snd q]).
Proof.
  unfold pair_pass.
  cbn [Nat.sub Nat.add seq outer_loop inner_loop nth_error].
  destruct (f p1 p2) as [q | e]; reflexivity.
Qed.

Lemma simulation_step_one (p : Planet) :
  simulation_step [p] = (q <- integrate p ;; Ok [q]).
Proof.
  unfold simulation_step. cbn [length].
  rewrite pair_pass_one. cbn [bind update_pass].
  destruct (integrate p) as [q | e]; cbn [bind]; [| reflexivity].
  apply pair_pass_one.
Qed.

(** X12.  No body, or one body alone, never fails.  With an empty
    collection every run returns the empty collection; with a single
    body every run returns a single body with the same mass, radius and
    colour, whatever they are: no division by a mass or a distance is
    reached (the pair loops [range(n - 1)] are empty for [n = 0] and
    [n = 1]), so even a mass of zero is harmless. *)
Theorem run_alone_never_raises (k : nat) (p : Planet) :
  run k [] = Ok [] /\
  exists q, run k [p] = Ok [q] /\ params q = params p /\
            (k <> 0%nat -> speed q <= MAX_VELOCITY).
Proof.
  split.
  - induction k as [| k IH]; [reflexivity |].
    cbn [run]. unfold simulation_step. cbn [length].
    rewrite pair_pass_nil. cbn [bind update_pass].
    rewrite pair_pass_nil. cbn [bind]. exact IH.
  - revert p. induction k as [| k IH]; intros p.
    + exists p. repeat split; try reflexivity. intros H. contradiction.
    + cbn [run]. rewrite simulation_step_one.
      destruct (integrate_returns p) as (c & _ & Hi).
      rewrite Hi. cbn [bind].
      destruct (IH (update_position c)) as (q & Hq & Hpar & Hsp).
      exists q. split; [exact Hq |]. split.
      * rewrite Hpar. exact (integrate_params p _ Hi).
      * intros _. destruct k as [| k'].
        -- cbn [run] in Hq. injection Hq as <-.
           exact (integrate_speed p _ Hi).
        -- apply Hsp. discriminate.
Qed.

Lemma run_alone_never_raises_witness :
  exists q,
    run 3 [Planet_init 300 300 0 10 white] = Ok [q] /\
    params q = params (Planet_init 300 300 0 10 white) /\
    speed q <= MAX_VELOCITY.
Proof.
  destruct (run_alone_never_raises 3 (Planet_init 300 300 0 10 white))
    as (_ & q & Hq & Hpar & Hsp).
  exists q. split; [exact Hq |]. split; [exact Hpar |].
  apply Hsp. discriminate.
Defined.

Lemma integrate_at_rest (p : Planet) :
  velocity p = (0, 0) -> stays_inside p -> integrate p = Ok p.
Proof.
  intros Hv Hin. unfold velocity in Hv. injection Hv as Hvx Hvy.
  assert (Hs : speed p = 0).
  { apply speed_value; [lra |]. rewrite Hvx, Hvy. ring. }
  unfold integrate.
  rewrite clamp_velocity_slow by (rewrite Hs; unfold MAX_VELOCITY; lra).
  cbn [bind]. f_equal.
  rewrite (update_position_inside p Hin).
  apply planet_ext; cbn [set_x set_y x y vx vy mass radius color];
    try reflexivity; rewrite ?Hvx, ?Hvy; ring.
Qed.

(** X13.  Two bodies with the same centre never come apart by
    themselves.  If two bodies at rest share their position and neither
    touches a wall, every run returns them exactly as they were:
    [apply_gravity] and [handle_collision] both skip a pair at distance
    zero. *)
Theorem coincident_bodies_stay_together (k : nat) (p1 p2 : Planet) :
  position p2 = position p1 ->
  velocity p1 = (0, 0) -> velocity p2 = (0, 0) ->
  stays_inside p1 -> stays_inside p2 ->
  run k [p1; p2] = Ok [p1; p2].
Proof.
  intros Hpos Hv1 Hv2 Hin1 Hin2.
  unfold position in Hpos. injection Hpos as Hx Hy.
  assert (Hsq : dist_sq_of p1 p2 = 0).
  { unfold dist_sq_of. rewrite Hx, Hy. ring. }
  assert (Hd : dist_of p1 p2 <= 0).
  { unfold dist_of. rewrite Hsq, sqrt_0. lra. }
  assert (Hstep : simulation_step [p1; p2] = Ok [p1; p2]).
  { unfold simulation_step. cbn [length].
    rewrite pair_pass_two, (apply_gravity_coincident p1 p2 Hsq).
    cbn [bind fst snd update_pass].
    rewrite (integrate_at_rest p1 Hv1 Hin1), (integrate_at_rest p2 Hv2 Hin2).
    cbn [bind].
    rewrite pair_pass_two, (handle_collision_skip p1 p2 (or_intror Hd)).
    reflexivity. }
  induction k as [| k IH]; [reflexivity |].
  cbn [run]. rewrite Hstep. cbn [bind]. exact IH.
Qed.

Lemma coincident_bodies_stay_together_witness :
  run 5 [resting_body; resting_body] = Ok [resting_body; resting_body].
Proof.
  apply (coincident_bodies_stay_together 5 resting_body resting_body);
    try reflexivity;
    unfold stays_inside, resting_body, Planet_init, DT, WIDTH, HEIGHT;
    cbn [x y vx vy radius]; lra.
Defined.

(** * Properties of the user interface *)

Section WidgetProperties.

Variable isdigit : pystr -> bool.
Variable py_float : pystr -> option R.
Variable collidepoint : Rect -> Z * Z -> bool.

Lemma removelast_length_le (A : Type) (l : list A) :
  (length (removelast l) <= length l)%nat.
Proof.
  induction l as [| a [| b tl] IH]; cbn [removelast length] in *; lia.
Qed.

Lemma removelast_Forall (A : Type) (P : A -> Prop) (l : list A) :
  Forall P l -> Forall P (removelast l).
Proof.
  intros H. induction H as [| a l Ha Hl IH]; [constructor |].
  cbn [removelast]. destruct l as [| b tl]; [constructor |].
  constructor; assumption.
Qed.

Lemma handle_event_rect (b : InputBox) (e : event) :
  rect (handle_event isdigit collidepoint b e) = rect b.
Proof.
  unfold handle_event.
  destruct e as [| pos | k u |]; cbn [set_focus rect active]; try reflexivity.
  destruct (active b); [| reflexivity].
  destruct k; cbn [render set_focus set_text rect]; try reflexivity.
  destruct ((length (text b) <? 5)%nat
            && (isdigit u || str_eqb u str_dot))%bool; reflexivity.
Qed.

Lemma str_eqb_true (a b : pystr) : str_eqb a b = true -> a = b.
Proof.
  unfold str_eqb. destruct (list_eq_dec N.eq_dec a b); [auto | discriminate].
Qed.

(** One event keeps a text of at most five accepted characters. *)
Lemma handle_event_text_ok (b : InputBox) (e : event) :
  single_key e ->
  (length (text b) <= 5)%nat /\ Forall (accepted isdigit) (text b) ->
  (length (text (handle_event isdigit collidepoint b e)) <= 5)%nat /\
  Forall (accepted isdigit) (text (handle_event isdigit collidepoint b e)).
Proof.
  intros Hkey [Hlen Hacc]. unfold handle_event.
  destruct e as [| pos | k u |]; cbn [set_focus text active]; auto.
  destruct (active b); auto.
  destruct k; cbn [render set_focus set_text text]; auto.
  - split; [| apply removelast_Forall; exact Hacc].
    pose proof (removelast_length_le _ (text b)). lia.
  - destruct (length (text b) <? 5)%nat eqn:Hroom; cbn [andb]; auto.
    destruct (isdigit u || str_eqb u str_dot)%bool eqn:Hok;
      cbn [set_text text]; auto.
    apply Nat.ltb_lt in Hroom. cbn [single_key] in Hkey.
    rewrite length_app. split; [lia |].
    apply Forall_app. split; [exact Hacc |].
    destruct u as [| c [| c' u']]; cbn [length] in Hkey; try lia;
      constructor; [| constructor].
    apply Bool.orb_true_iff in Hok. destruct Hok as [Hd | Hdot].
    + left. exact Hd.
    + right. apply str_eqb_true in Hdot. unfold str_dot in Hdot.
      congruence.
Qed.

(** X14.  A text box never holds more than five characters, and only
    digits and dots.  Starting from a text of at most five accepted
    characters, whatever sequence of events follows (each key press
    carrying at most one character), the text of the box is again at most
    five characters long and every character of it was accepted by
    [isdigit] or is ['.']. *)
Theorem handle_events_text_ok (es : list event) (b : InputBox) :
  Forall single_key es ->
  (length (text b) <= 5)%nat -> Forall (accepted isdigit) (text b) ->
  (length (text (handle_events isdigit collidepoint b es)) <= 5)%nat /\
  Forall (accepted isdigit) (text (handle_events isdigit collidepoint b es)).
Proof.
  intros Hes. revert b.
  induction Hes as [| e es He Hrest IH]; intros b Hlen Hacc;
    cbn [handle_events]; [auto |].
  destruct (handle_event_text_ok b e He (conj Hlen Hacc)) as [Hlen' Hacc'].
  apply IH; assumption.
Qed.

Lemma handle_event_in_sync (b : InputBox) (e : event) :
  in_sync b -> in_sync (handle_event isdigit collidepoint b e).
Proof.
  unfold in_sync, handle_event. intros [Hc Ht].
  destruct e as [| pos | k u |];
    cbn [set_focus box_color txt_surface text active]; auto.
  destruct (active b) eqn:Ha; [| rewrite Ha; auto].
  destruct k; cbn [render set_focus set_text box_color txt_surface text active].
  - auto.
  - rewrite Ha. auto.
  - destruct ((length (text b) <? 5)%nat
              && (isdigit u || str_eqb u str_dot))%bool;
      cbn [set_text box_color txt_surface text active]; rewrite Ha; auto.
Qed.

(** X15.  The display of a text box never lags behind its state.  After
    any sequence of events on a freshly built box, the frame colour is
    [LIGHT_GRAY] exactly when the box is active ([GRAY] otherwise) and
    the rendered surface shows the current text. *)
Theorem handle_events_in_sync (es : list event) (x0 y0 w h : Z)
    (text0 : pystr) :
  let b := handle_events isdigit collidepoint
             (InputBox_init x0 y0 w h text0) es in
  box_color b = (if active b then LIGHT_GRAY else GRAY) /\
  txt_surface b = text b.
Proof.
  cbv zeta.
  assert (Hgen : forall b, in_sync b ->
                 in_sync (handle_events isdigit collidepoint b es)).
  { induction es as [| e es' IH]; intros b Hb; cbn [handle_events];
      [exact Hb |].
    apply IH, handle_event_in_sync, Hb. }
  apply Hgen. unfold in_sync, InputBox_init. cbn. auto.
Qed.

(** X16.  Typing a character and pressing backspace is a round trip.
    On an active box with room left, an accepted one-character key press
    appends that character, and a backspace right after it gives back
    the text from before; the box stays active. *)
Theorem type_then_backspace (b : InputBox) (u u' : pystr) :
  active b = true ->
  (length (text b) < 5)%nat ->
  length u = 1%nat ->
  isdigit u = true \/ u = str_dot ->
  let b1 := handle_event isdigit collidepoint b (KEYDOWN K_other u) in
  let b2 := handle_event isdigit collidepoint b1 (KEYDOWN K_BACKSPACE u') in
  text b1 = text b ++ u /\ text b2 = text b /\ active b2 = true.
Proof.
  intros Ha Hroom Hone Hok. cbv zeta.
  assert (Htest : ((length (text b) <? 5)%nat
                   && (isdigit u || str_eqb u str_dot))%bool = true).
  { apply Bool.andb_true_iff. split; [apply Nat.ltb_lt; exact Hroom |].
    apply Bool.orb_true_iff. destruct Hok as [Hd | ->]; [left; exact Hd |].
    right. unfold str_eqb.
    destruct (list_eq_dec N.eq_dec str_dot str_dot); [reflexivity |].
    contradiction. }
  assert (E1 : handle_event isdigit collidepoint b (KEYDOWN K_other u)
               = render (set_text b (text b ++ u))).
  { unfold handle_event. rewrite Ha, Htest. reflexivity. }
  rewrite E1. unfold handle_event.
  cbn [render set_text text active]. rewrite Ha.
  cbn [render set_text text active].
  destruct u as [| c [| c' tl]]; cbn [length] in Hone; try discriminate.
  rewrite removelast_last. auto.
Qed.

(** X17.  A box that is not clicked is not changed.  On an inactive box
    (drawn [GRAY]), a sequence of events none of which is a click inside
    the box leaves the box exactly as it was, whatever keys are
    pressed. *)
Theorem handle_events_ignored (es : list event) (b : InputBox) :
  active b = false -> box_color b = GRAY ->
  Forall (fun e => hits collidepoint b e = false) es ->
  handle_events isdigit collidepoint b es = b.
Proof.
  intros Ha Hc Hes.
  induction Hes as [| e es He Hrest IH]; cbn [handle_events]; [reflexivity |].
  assert (E : handle_event isdigit collidepoint b e = b).
  { unfold handle_event.
    destruct e as [| pos | k u |]; cbn [hits] in He; try reflexivity.
    - rewrite He. cbn [set_focus].
      destruct b; cbn [active box_color] in *; subst; reflexivity.
    - rewrite Ha. reflexivity. }
  rewrite E. exact IH.
Qed.

Lemma handle_event_text_click (b : InputBox) (pos : Z * Z) :
  text (handle_event isdigit collidepoint b (MOUSEBUTTONDOWN pos)) = text b /\
  active (handle_event isdigit collidepoint b (MOUSEBUTTONDOWN pos))
    = collidepoint (rect b) pos.
Proof. unfold handle_event. cbn [set_focus text active]. auto. Qed.

Lemma get_value_text (b b' : InputBox) (d : R) :
  text b' = text b -> get_value py_float b' d = get_value py_float b d.
Proof. unfold get_value. intros ->. reflexivity. Qed.

(** X18.  A click either focuses a box or spawns a planet, never both.
    After a [MOUSEBUTTONDOWN], each box is active exactly if the click
    was inside it and keeps its text.  A click inside one of the boxes
    leaves the collection as it was; a click outside both appends one
    planet, at rest at the pointer position, with the mass and the
    radius the two boxes give (defaults 50 and 10) and the colour
    drawn. *)
Theorem process_click (w : World) (pos : Z * Z) (rnd : rgb) :
  let w' := process_event isdigit py_float collidepoint w
              (MOUSEBUTTONDOWN pos) rnd in
  let in_mass := collidepoint (rect (mass_box w)) pos in
  let in_radius := collidepoint (rect (radius_box w)) pos in
  active (mass_box w') = in_mass /\
  active (radius_box w') = in_radius /\
  text (mass_box w') = text (mass_box w) /\
  text (radius_box w') = text (radius_box w) /\
  running w' = running w /\
  ((in_mass || in_radius)%bool = true -> planets w' = planets w) /\
  ((in_mass || in_radius)%bool = false ->
   planets w' =
     planets w ++
     [Planet_init (IZR (fst pos)) (IZR (snd pos))
        (get_value py_float (mass_box w) 50)
        (get_value py_float (radius_box w) 10) rnd]).
Proof.
  cbv zeta. unfold process_event.
  cbn [running mass_box radius_box planets].
  destruct (handle_event_text_click (mass_box w) pos) as [Htm Ham].
  destruct (handle_event_text_click (radius_box w) pos) as [Htr Har].
  rewrite !handle_event_rect.
  rewrite (get_value_text _ _ 50 Htm), (get_value_text _ _ 10 Htr).
  repeat (split; [assumption || reflexivity |]).
  unfold spawn. cbn [fst snd].
  split; intros Hin; rewrite Hin; reflexivity.
Qed.

Lemma process_event_appends (w : World) (e : event) (rnd : rgb) :
  exists new,
    planets (process_event isdigit py_float collidepoint w e rnd)
      = planets w ++ new /\
    (length new <= if is_click e then 1 else 0)%nat /\
    Forall (fun p => velocity p = (0, 0)) new.
Proof.
  unfold process_event. cbn [planets].
  destruct e as [| pos | k u |]; cbn [is_click];
    try (exists []; rewrite app_nil_r; repeat split; auto; constructor).
  unfold spawn.
  destruct (negb _).
  - eexists. split; [reflexivity |]. split; [cbn; lia |].
    repeat constructor.
  - exists []. rewrite app_nil_r. repeat split; auto.
Qed.

Lemma process_events_prefix (es : list (event * rgb)) (w : World) :
  exists new,
    planets (process_events isdigit py_float collidepoint w es)
      = planets w ++ new.
Proof.
  revert w. induction es as [| [e rnd] es IH]; intros w;
    cbn [process_events].
  - exists []. rewrite app_nil_r. reflexivity.
  - destruct (process_event_appends w e rnd) as (n1 & E1 & _).
    destruct (IH (process_event isdigit py_float collidepoint w e rnd))
      as (n2 & E2).
    exists (n1 ++ n2). rewrite E2, E1, app_assoc. reflexivity.
Qed.

(** X19.  Events only ever append planets.  After any sequence of
    events the collection is the previous collection, unchanged and in
    the same order, followed by the planets spawned: at most one per
    click, each of them at rest. *)
Theorem process_events_appends (es : list (event * rgb)) (w : World) :
  exists new,
    planets (process_events isdigit py_float collidepoint w es)
      = planets w ++ new /\
    (length new <= length (filter is_click (map fst es)))%nat /\
    Forall (fun p => velocity p = (0, 0)) new.
Proof.
  revert w. induction es as [| [e rnd] es IH]; intros w;
    cbn [process_events].
  - exists []. rewrite app_nil_r. repeat split; auto.
  - destruct (process_event_appends w e rnd) as (n1 & E1 & L1 & R1).
    destruct (IH (process_event isdigit py_float collidepoint w e rnd))
      as (n2 & E2 & L2 & R2).
    exists (n1 ++ n2). rewrite E2, E1, app_assoc.
    split; [reflexivity |]. split.
    + rewrite length_app. cbn [map fst filter].
      destruct (is_click e); cbn [length]; lia.
    + apply Forall_app. auto.
Qed.

(** X20.  [QUIT] is final.  After a sequence of events, [running] is
    true exactly if it was true before and no event of the sequence was
    [QUIT]: nothing ever sets it back. *)
Theorem process_events_running (es : list (event * rgb)) (w : World) :
  running (process_events isdigit py_float collidepoint w es)
  = (running w && forallb (fun e => negb (is_quit (fst e))) es)%bool.
Proof.
  revert w. induction es as [| [e rnd] es IH]; intros w;
    cbn [process_events forallb].
  - rewrite Bool.andb_true_r. reflexivity.
  - rewrite IH. unfold process_event. cbn [running fst].
    destruct e; cbn [is_quit negb andb];
      rewrite ?Bool.andb_false_r; reflexivity.
Qed.

End WidgetProperties.

Lemma handle_events_text_ok_witness :
  (length (text (handle_events ascii_isdigit half_open_collidepoint
                   (mass_box initial_world) some_events)) <= 5)%nat /\
  Forall (accepted ascii_isdigit)
    (text (handle_events ascii_isdigit half_open_collidepoint
             (mass_box initial_world) some_events)).
Proof.
  apply (handle_events_text_ok ascii_isdigit half_open_collidepoint
           some_events (mass_box initial_world)).
  - unfold some_events. repeat constructor.
  - cbn. lia.
  - cbn. repeat constructor; left; reflexivity.
Defined.

Lemma type_then_backspace_witness :
  text (handle_event ascii_isdigit half_open_collidepoint focused_box
          (KEYDOWN K_other [55%N])) = [53%N; 48%N; 55%N] /\
  text (handle_event ascii_isdigit half_open_collidepoint
          (handle_event ascii_isdigit half_open_collidepoint focused_box
             (KEYDOWN K_other [55%N]))
          (KEYDOWN K_BACKSPACE [])) = text focused_box /\
  active (handle_event ascii_isdigit half_open_collidepoint
            (handle_event ascii_isdigit half_open_collidepoint focused_box
               (KEYDOWN K_other [55%N]))
            (KEYDOWN K_BACKSPACE [])) = true.
Proof.
  apply (type_then_backspace ascii_isdigit half_open_collidepoint
           focused_box [55%N] []).
  - reflexivity.
  - cbn. lia.
  - reflexivity.
  - left. reflexivity.
Defined.

Lemma handle_events_ignored_witness :
  handle_events ascii_isdigit half_open_collidepoint
    (mass_box initial_world)
    [KEYDOWN K_other [55%N]; MOUSEBUTTONDOWN (600, 400)%Z;
     KEYDOWN K_BACKSPACE []; KEYDOWN K_RETURN []]
  = mass_box initial_world.
Proof.
  apply (handle_events_ignored ascii_isdigit half_open_collidepoint).
  - reflexivity.
  - reflexivity.
  - repeat constructor.
Defined.

Lemma process_click_witness :
  planets (process_event ascii_isdigit never_float half_open_collidepoint
             initial_world (MOUSEBUTTONDOWN (600, 400)%Z) white)
    = [Planet_init 600 400 50 10 white] /\
  planets (process_event ascii_isdigit never_float half_open_collidepoint
             initial_world (MOUSEBUTTONDOWN (20, 20)%Z) white)
    = [].
Proof.
  split.
  - destruct (process_click ascii_isdigit never_float half_open_collidepoint
                initial_world (600, 400)%Z white)
      as (_ & _ & _ & _ & _ & _ & Hout).
    rewrite Hout; reflexivity.
  - destruct (process_click ascii_isdigit never_float half_open_collidepoint
                initial_world (20, 20)%Z white)
      as (_ & _ & _ & _ & _ & Hin & _).
    rewrite Hin; reflexivity.
Defined.

(** * Properties of whole frames and sessions *)

Section SessionProperties.

Variable isdigit : pystr -> bool.
Variable py_float : pystr -> option R.
Variable collidepoint : Rect -> Z * Z -> bool.

Lemma process_event_planets (w : World) (e : event) (rnd : rgb) :
  planets (process_event isdigit py_float collidepoint w e rnd) = planets w \/
  exists pos,
    planets (process_event isdigit py_float collidepoint w e rnd)
    = planets w ++
      [Planet_init (IZR (fst pos)) (IZR (snd pos))
         (get_value py_float
            (handle_event isdigit collidepoint (mass_box w) e) 50)
         (get_value py_float
            (handle_event isdigit collidepoint (radius_box w) e) 10) rnd].
Proof.
  unfold process_event. cbn [planets].
  destruct e as [| pos | k u |]; auto.
  unfold spawn. destruct (negb _); [| auto].
  right. exists pos. reflexivity.
Qed.

Lemma frame_keeps_bodies (w w' : World) (es : list (event * rgb)) :
  frame isdigit py_float collidepoint w es = Ok w' ->
  exists new, map params (planets w') = map params (planets w) ++ new.
Proof.
  unfold frame. intros Hf.
  destruct (simulation_step
              (planets (process_events isdigit py_float collidepoint w es)))
    as [ps |] eqn:Es; [| discriminate].
  cbn [bind] in Hf. injection Hf as <-. cbn [planets].
  rewrite (simulation_step_params _ _ Es).
  destruct (process_events_prefix isdigit py_float collidepoint es w)
    as (new & Enew).
  exists (map params new). rewrite Enew. apply map_app.
Qed.

(** X21.  A planet, once spawned, stays for the rest of the session.
    Whenever a session (any number of frames, each with its events and
    its physics pass) returns normally, the masses, radii and colours of
    the initial collection are, in the same order, a prefix of those of
    the final one: no frame deletes, merges, reorders or resizes a
    body. *)
Theorem session_keeps_bodies (fs : list (list (event * rgb)))
    (w w' : World) :
  session isdigit py_float collidepoint w fs = Ok w' ->
  exists new, map params (planets w') = map params (planets w) ++ new.
Proof.
  revert w. induction fs as [| es fs IH]; intros w Hs; cbn [session] in Hs.
  - injection Hs as <-. exists []. rewrite app_nil_r. reflexivity.
  - destruct (running w).
    + destruct (frame isdigit py_float collidepoint w es) as [w1 |] eqn:Ef;
        [| discriminate].
      cbn [bind] in Hs.
      destruct (frame_keeps_bodies w w1 es Ef) as (n1 & E1).
      destruct (IH w1 Hs) as (n2 & E2).
      exists (n1 ++ n2). rewrite E2, E1, app_assoc. reflexivity.
    + injection Hs as <-. exists []. rewrite app_nil_r. reflexivity.
Qed.

Hypothesis float_not_zero : forall s, py_float s <> Some 0.

Lemma get_value_not_zero (b : InputBox) (d : R) :
  d <> 0 -> get_value py_float b d <> 0.
Proof.
  intros Hd. unfold get_value.
  destruct (py_float (text b)) as [v |] eqn:E; [| exact Hd].
  intros ->. exact (float_not_zero _ E).
Qed.

Lemma process_events_has_mass (es : list (event * rgb)) (w : World) :
  Forall has_mass (planets w) ->
  Forall has_mass (planets (process_events isdigit py_float collidepoint w es)).
Proof.
  revert w. induction es as [| [e rnd] es IH]; intros w Hw;
    cbn [process_events]; [exact Hw |].
  apply IH.
  destruct (process_event_planets w e rnd) as [-> | (pos & ->)];
    [exact Hw |].
  apply Forall_app. split; [exact Hw |].
  constructor; [| constructor].
  unfold has_mass, Planet_init. cbn [mass].
  apply get_value_not_zero. lra.
Qed.

Lemma frame_returns (es : list (event * rgb)) (w : World) :
  Forall has_mass (planets w) ->
  exists w', frame isdigit py_float collidepoint w es = Ok w' /\
             Forall has_mass (planets w').
Proof.
  intros Hw. unfold frame.
  pose proof (process_events_has_mass es w Hw) as Hev.
  destruct (simulation_step_returns _ Hev) as (ps & Es & _ & Hps).
  rewrite Es. cbn [bind]. eexists. split; [reflexivity |]. exact Hps.
Qed.


End SessionProperties.

Lemma never_float_not_zero : forall s, never_float s <> Some 0.
Proof. intros s. discriminate. Qed.

(** Two frames: a click in the arena, then nothing. *)
Lemma session_two_frames :
  exists w',
    session ascii_isdigit never_float half_open_collidepoint initial_world
      [[(MOUSEBUTTONDOWN (600, 400)%Z, white)]; []] = Ok w'.
Proof.
  cbn [session initial_world running].
  destruct (frame_returns ascii_isdigit never_float half_open_collidepoint
              never_float_not_zero
              [(MOUSEBUTTONDOWN (600, 400)%Z, white)] initial_world)
    as (w1 & E1 & H1); [constructor |].
  fold initial_world. rewrite E1. cbn [bind].
  destruct (running w1); [| exists w1; reflexivity].
  destruct (frame_returns ascii_isdigit never_float half_open_collidepoint
              never_float_not_zero [] w1 H1) as (w2 & E2 & _).
  exists w2. unfold rgb in E2. rewrite E2. reflexivity.
Qed.

Lemma session_keeps_bodies_witness :
  exists w' new,
    session ascii_isdigit never_float half_open_collidepoint initial_world
      [[(MOUSEBUTTONDOWN (600, 400)%Z, white)]; []] = Ok w' /\
    map params (planets w') = map params (planets initial_world) ++ new.
Proof.
  destruct session_two_frames as (w' & Hs).
  destruct (session_keeps_bodies ascii_isdigit never_float
              half_open_collidepoint _ initial_world w' Hs) as (new & E).
  exists w', new. split; [exact Hs | exact E].
Defined.


(** X23.  A mass of zero crashes the gravity pass.  For two bodies of
    non-negative radius outside the contact range, one of which has mass
    zero, the Simulation Step raises [ZeroDivisionError]. *)
Theorem zero_mass_raises (p1 p2 : Planet) :
  0 <= radius p1 -> 0 <= radius p2 ->
  dist_of p1 p2 > radius p1 + radius p2 + 5 ->
  mass p1 = 0 \/ mass p2 = 0 ->
  simulation_step [p1; p2] = Raise ZeroDivisionError /\
  forall k, run (S k) [p1; p2] = Raise ZeroDivisionError.
Proof.
  intros Hr1 Hr2 Hfar Hzero.
  assert (Hsq : dist_sq_of p1 p2 <> 0).
  { intros H0. unfold dist_of in Hfar. rewrite H0, sqrt_0 in Hfar. lra. }
  assert (Hstep : simulation_step [p1; p2] = Raise ZeroDivisionError).
  { unfold simulation_step. cbn [length].
    rewrite pair_pass_two.
    rewrite (apply_gravity_far_raises p1 p2 Hsq Hfar Hzero). reflexivity. }
  split; [exact Hstep |].
  intros k. cbn [run]. rewrite Hstep. reflexivity.
Qed.

Lemma zero_mass_raises_witness :
  simulation_step [massless_body; right_body] = Raise ZeroDivisionError /\
  forall k, run (S k) [massless_body; right_body] = Raise ZeroDivisionError.
Proof.
  apply (zero_mass_raises massless_body right_body).
  - unfold massless_body, Planet_init; cbn [radius]. lra.
  - unfold right_body, Planet_init; cbn [radius]. lra.
  - rewrite (dist_of_value _ _ 100).
    + unfold massless_body, right_body, Planet_init; cbn [radius]. lra.
    + lra.
    + unfold dist_sq_of, massless_body, right_body, Planet_init;
        cbn [x y]. ring.
  - left. reflexivity.
Defined.

(** * More on the walls and on editing *)

(** X24.  The right, the top and the bottom wall reflect like the left
    one.  If the moved body sticks out over the right wall (and not over
    the left one), [update_position] puts its centre at
    [WIDTH - radius] and multiplies [vx] by [-0.8]; likewise for the
    bottom wall with [HEIGHT - radius] and [vy]; a body that sticks out
    over the top wall and is not taller than the arena ends at
    [y = radius] with [vy] multiplied by [-0.8]. *)
Theorem update_position_other_walls (p : Planet) :
  (0 <= x p + vx p - radius p -> x p + vx p + radius p > WIDTH ->
   x (update_position p) = WIDTH - radius p /\
   vx (update_position p) = -0.8 * vx p) /\
  (0 <= y p + vy p - radius p -> y p + vy p + radius p > HEIGHT ->
   y (update_position p) = HEIGHT - radius p /\
   vy (update_position p) = -0.8 * vy p) /\
  (y p + vy p - radius p < 0 -> 2 * radius p <= HEIGHT ->
   y (update_position p) = radius p /\
   vy (update_position p) = -0.8 * vy p).
Proof.
  split; [| split]; intros H1 H2; split;
    walls p; unfold DT in *; lra.
Qed.

Lemma update_position_other_walls_witness :
  x (update_position (mkPlanet 1195 400 10 0 50 10 white)) = WIDTH - 10 /\
  vx (update_position (mkPlanet 1195 400 10 0 50 10 white)) = -0.8 * 10.
Proof.
  destruct (update_position_other_walls (mkPlanet 1195 400 10 0 50 10 white))
    as (Hright & _ & _).
  apply Hright; cbn [x vx radius]; unfold WIDTH; lra.
Defined.

(** X25.  The Motion Integrator never speeds a body up, and a body at
    rest stays at rest.  For every body the pass returns a body whose
    speed is at most the speed before the pass; if the velocity was
    [(0, 0)] it still is, also when a wall test moves the body. *)
Theorem integrate_never_speeds_up (p : Planet) :
  exists q,
    integrate p = Ok q /\
    speed q <= speed p /\
    (velocity p = (0, 0) -> velocity q = (0, 0)).
Proof.
  destruct (integrate_returns p) as (c & Hc & Hi).
  exists (update_position c). split; [exact Hi |].
  pose proof (update_position_speed c) as Hup.
  destruct (Rgt_dec (speed p) MAX_VELOCITY) as [Hfast | Hslow].
  - rewrite (clamp_velocity_fast p Hfast) in Hc. injection Hc as Ec.
    pose proof (speed_after_clamp p Hfast) as Hcap. rewrite Ec in Hcap.
    split; [lra |].
    intros Hrest. unfold velocity in Hrest. injection Hrest as Hx Hy.
    assert (Hs : speed p = 0).
    { apply speed_value; [lra |]. rewrite Hx, Hy. ring. }
    unfold MAX_VELOCITY in Hfast. lra.
  - rewrite clamp_velocity_slow in Hc by lra. injection Hc as <-.
    split; [exact Hup |].
    intros Hrest. unfold velocity in *. injection Hrest as Hx Hy.
    assert (Ex : vx (update_position p) = 0) by (walls p; lra).
    assert (Ey : vy (update_position p) = 0) by (walls p; lra).
    rewrite Ex, Ey. reflexivity.
Qed.

Lemma integrate_never_speeds_up_witness :
  exists q,
    integrate wide_body = Ok q /\
    speed q <= speed wide_body /\
    velocity q = (0, 0).
Proof.
  destruct (integrate_never_speeds_up wide_body) as (q & Hq & Hs & Hrest).
  exists q. split; [exact Hq |]. split; [exact Hs |].
  apply Hrest. reflexivity.
Defined.

Section EditingProperties.

Variable isdigit : pystr -> bool.
Variable collidepoint : Rect -> Z * Z -> bool.

(** X26.  Key presses that do not edit.  On an active box, a character
    key leaves the text as it is when the box already holds five
    characters, or when the character is neither a digit nor a dot; a
    backspace on an empty text leaves it empty. *)
Theorem keys_without_effect (b : InputBox) (u : pystr) :
  active b = true ->
  (length (text b) = 5%nat \/ (isdigit u = false /\ u <> str_dot) ->
   text (handle_event isdigit collidepoint b (KEYDOWN K_other u)) = text b) /\
  (text b = [] ->
   text (handle_event isdigit collidepoint b (KEYDOWN K_BACKSPACE u)) = []).
Proof.
  intros Ha. unfold handle_event. rewrite Ha. split.
  - intros [Hfull | [Hnd Hndot]].
    + rewrite Hfull. reflexivity.
    + rewrite Hnd.
      assert (Hne : str_eqb u str_dot = false).
      { unfold str_eqb. destruct (list_eq_dec N.eq_dec u str_dot);
          [contradiction | reflexivity]. }
      rewrite Hne, Bool.andb_false_r. reflexivity.
  - intros Hempty. cbn [render set_text text]. rewrite Hempty. reflexivity.
Qed.

(** X27.  [RETURN] ends the editing.  After a [RETURN] on an active box
    the box is inactive and drawn [GRAY] with its text unchanged, and
    the key presses that follow do nothing to it until the box is
    clicked again. *)
Theorem return_ends_editing (b : InputBox) (u : pystr) (es : list event) :
  active b = true ->
  Forall (fun e => hits collidepoint b e = false) es ->
  let b' := handle_event isdigit collidepoint b (KEYDOWN K_RETURN u) in
  active b' = false /\ box_color b' = GRAY /\ text b' = text b /\
  handle_events isdigit collidepoint b' es = b'.
Proof.
  intros Ha Hes. cbv zeta.
  assert (E : handle_event isdigit collidepoint b (KEYDOWN K_RETURN u)
              = render (set_focus b false GRAY)).
  { unfold handle_event. rewrite Ha. reflexivity. }
  rewrite E. repeat split.
  set (b' := render (set_focus b false GRAY)).
  assert (Hes' : Forall (fun e => hits collidepoint b' e = false) es)
    by exact Hes.
  clear Hes E.
  induction Hes' as [| e es He Hrest IH]; cbn [handle_events];
    [reflexivity |].
  assert (Ee : handle_event isdigit collidepoint b' e = b').
  { unfold handle_event.
    destruct e as [| pos | k u0 |]; cbn [hits] in He; try reflexivity.
    rewrite He. reflexivity. }
  rewrite Ee. exact IH.
Qed.

End EditingProperties.

Lemma keys_without_effect_witness :
  text (handle_event ascii_isdigit half_open_collidepoint focused_box
          (KEYDOWN K_other [97%N])) = text focused_box.
Proof.
  destruct (keys_without_effect ascii_isdigit half_open_collidepoint
              focused_box [97%N]) as [Hdrop _]; [reflexivity |].
  apply Hdrop. right. split; [reflexivity | discriminate].
Defined.

Lemma return_ends_editing_witness :
  handle_events ascii_isdigit half_open_collidepoint
    (handle_event ascii_isdigit half_open_collidepoint focused_box
       (KEYDOWN K_RETURN []))
    [KEYDOWN K_other [55%N]; KEYDOWN K_BACKSPACE []]
  = handle_event ascii_isdigit half_open_collidepoint focused_box
      (KEYDOWN K_RETURN []).
Proof.
  apply (return_ends_editing ascii_isdigit half_open_collidepoint
           focused_box [] [KEYDOWN K_other [55%N]; KEYDOWN K_BACKSPACE []]).
  - reflexivity.
  - repeat constructor.
Defined.
